(** * metasepia_brain: the servo module (arduino_code/ArduinoProject/servo.cpp)

    A shallow embedding of [servo::clamp], [servo::set_positions],
    [servo::drive_fins] and [servo::init], and the properties the
    specification states about them.

    Numeric model.  The C++ [float] values are modelled by exact rationals
    ([Q]): comparisons, additions and multiplications are the mathematical
    ones.  Every finite [float] is a rational and comparisons are exact on
    floats; sums and products are rounded in C++ and exact here.  The
    statements made on these definitions either name the very expression
    the code evaluates or survive rounding.  Where the size of a sum
    matters (the slew-rate limit), the statement is made on
    [set_positions_r], in which every [float] sum goes through a rounding
    function; [round_binary32] is the rounding of IEEE 754 binary32.
    Infinities and NaN are outside the model.  Equality of results is
    Leibniz equality unless [==] is written.

    Constants, tables and helpers that servo.cpp takes from servo.h, robot.h,
    waveform.h and the Arduino core are not part of the translated file; they
    are the fields of the class [Env] below. *)

From Stdlib Require Import ZArith QArith Qabs Qminmax Lqa Lia Bool.
From stdpp Require Import base list.

#[local] Open Scope Z_scope.

(** * Part I: the embedding *)

(** ** Comparisons on [float], as booleans *)

Definition Qlt_bool (x y : Q) : bool := negb (Qle_bool y x).
Definition Qgt_bool (x y : Q) : bool := Qlt_bool y x.

(** Arduino.h: [#define abs(x) ((x)>0?(x):-(x))]. *)
Definition abs (x : Q) : Q := if Qgt_bool x 0 then x else (- x)%Q.

(** ** The environment of servo.cpp *)

(** What servo.cpp uses and does not define.  [side_B], [side_P] and [side_S]
    are the constants [B], [P] and [S]; [arduino_map] is the Arduino core's
    [map]; the four [calc_angle_*] functions are those of the [waveform]
    module. *)
Class Env := {
  NUM_SERVOS : nat;
  SERVOMIN : Q;
  SERVOMAX : Q;
  MAX_ANGLE_DELTA : Q;
  MAX_TIME_INC : Q;
  NEUTRALS_PORT : nat -> Q;
  NEUTRALS_STARBOARD : nat -> Q;
  SINWAVE : Z;
  FLATWAVE : Z;
  STANDINGWAVE : Z;
  SINANDFLAT : Z;
  side_B : Z;
  side_P : Z;
  side_S : Z;
  calc_angle_sinwave : Q -> Q -> Q -> nat -> Q;
  calc_angle_flatwave : Q -> Q -> Q -> Q;
  calc_angle_standingwave : Q -> Q -> Q -> nat -> Q;
  calc_angle_sinandflat : Q -> Q -> Q -> nat -> Q;
  arduino_map : Q -> Q -> Q -> Q -> Q -> Q
}.

(** ** Program state *)

(** One call [pwm.setPWM(num, on, off)]; [num] is a [uint8_t].  [pw_off] is
    the value handed over as [off], before its conversion to [uint16_t]. *)
Record pwm_write := PwmWrite {
  pw_num : Z;
  pw_on : Z;
  pw_off : Q
}.

(** The globals [last_port_angle] and [last_starboard_angle] (both
    [float[5]]) and the sequence of writes received by the driver [pwm]. *)
Record State := mkState {
  last_port_angle : list Q;
  last_starboard_angle : list Q;
  pwm : list pwm_write
}.

Definition initial_state : State :=
  mkState [0; 0; 0; 0; 0]%Q [0; 0; 0; 0; 0]%Q [].

(** ** A state and failure monad

    [None] stands for undefined behaviour: an access outside an array, or a
    loop that cannot terminate. *)

Definition M (A : Type) : Type := State -> option (A * State).

Definition ret {A : Type} (a : A) : M A := fun st => Some (a, st).

Definition bind {A B : Type} (m : M A) (f : A -> M B) : M B :=
  fun st => match m st with
            | Some (a, st') => f a st'
            | None => None
            end.

Definition undefined {A : Type} : M A := fun _ => None.

Declare Scope servo_scope.
Delimit Scope servo_scope with servo.
Notation "x <- m ;; k" := (bind m (fun x => k))
  (at level 100, m at next level, right associativity) : servo_scope.
Notation "m ;; k" := (bind m (fun _ => k))
  (at level 100, right associativity) : servo_scope.

(** [last_port_angle[i]] read and written. *)
Definition read_port (i : nat) : M Q :=
  fun st => match last_port_angle st !! i with
            | Some a => Some (a, st)
            | None => None
            end.

Definition write_port (i : nat) (a : Q) : M unit :=
  fun st => match last_port_angle st !! i with
            | Some _ =>
                Some (tt, mkState (<[i:=a]> (last_port_angle st))
                                  (last_starboard_angle st) (pwm st))
            | None => None
            end.

(** [last_starboard_angle[i]] read and written. *)
Definition read_starboard (i : nat) : M Q :=
  fun st => match last_starboard_angle st !! i with
            | Some a => Some (a, st)
            | None => None
            end.

Definition write_starboard (i : nat) (a : Q) : M unit :=
  fun st => match last_starboard_angle st !! i with
            | Some _ =>
                Some (tt, mkState (last_port_angle st)
                                  (<[i:=a]> (last_starboard_angle st)) (pwm st))
            | None => None
            end.

(** [pwm.setPWM(num, on, off)]. *)
Definition setPWM (num : Z) (on : Z) (off : Q) : M unit :=
  fun st => Some (tt, mkState (last_port_angle st) (last_starboard_angle st)
                              (pwm st ++ [PwmWrite num on off])).

(** Conversion of an [int] to [uint8_t]. *)
Definition to_uint8 (z : Z) : Z := z mod 256.

(** Conversion of a [float] to [long]: the fractional part is dropped. *)
Definition to_long (x : Q) : Z := Z.quot (Qnum x) (Z.pos (Qden x)).

(** The phase accumulators [time_milli_t] (declared in servo.h): a [port]
    and a [starboard] field, [float] like the increments added to them. *)
Record time_milli_t := mkTime {
  port : Q;
  starboard : Q
}.

Section Servo.
Context {env : Env}.
#[local] Open Scope servo_scope.

(** ** [servo::clamp] *)

Definition clamp (time_inc : Q) : Q :=
  if Qgt_bool time_inc MAX_TIME_INC then MAX_TIME_INC
  else if Qlt_bool time_inc (- MAX_TIME_INC)%Q then (- MAX_TIME_INC)%Q
  else time_inc.

(** ** [servo::set_positions] *)

(** The [switch (wavetype)]; [angle] is the variable's value before it. *)
Definition dispatch (amplitude wavelength time_milli : Q) (wavetype : Z)
    (servonum : nat) (angle : Q) : Q :=
  if wavetype =? SINWAVE then
    calc_angle_sinwave amplitude wavelength time_milli servonum
  else if wavetype =? FLATWAVE then
    calc_angle_flatwave amplitude wavelength time_milli
  else if wavetype =? STANDINGWAVE then
    calc_angle_standingwave amplitude wavelength time_milli servonum
  else if wavetype =? SINANDFLAT then
    calc_angle_sinandflat amplitude wavelength time_milli servonum
  else angle.

(** The two-sided [if] on [angle] against a history entry [last]. *)
Definition slew (angle last : Q) : Q :=
  if Qgt_bool angle (last + MAX_ANGLE_DELTA)%Q then
    (last + MAX_ANGLE_DELTA)%Q
  else if Qlt_bool angle (last - MAX_ANGLE_DELTA)%Q then
    (last - MAX_ANGLE_DELTA)%Q
  else angle.

(** The block under [// PORT side angle set]; returns the new [angle]. *)
Definition port_side (servonum : nat) (angle : Q) : M Q :=
  let angle := (angle + NEUTRALS_PORT servonum)%Q in
  last <- read_port servonum ;;
  let angle := slew angle last in
  let pulse_port := arduino_map angle (-90) 90 SERVOMIN SERVOMAX in
  setPWM (Z.of_nat servonum) 0 pulse_port ;;
  write_port servonum angle ;;
  ret angle.

(** The block under [// STARBOARD side angle set]. *)
Definition starboard_side (servonum : nat) (angle : Q) : M Q :=
  let angle := (angle + NEUTRALS_STARBOARD servonum)%Q in
  last <- read_starboard servonum ;;
  let angle := slew angle last in
  let pulse_starboard := arduino_map (- angle) (-90) 90 SERVOMIN SERVOMAX in
  setPWM (to_uint8 (Z.of_nat servonum + Z.of_nat NUM_SERVOS)) 0
         pulse_starboard ;;
  write_starboard servonum angle ;;
  ret angle.

(** One iteration of the [for] loop.  [angle] is declared outside the loop:
    its value is carried from one iteration to the next. *)
Definition servo_body (amplitude wavelength time_milli : Q)
    (wavetype side : Z) (servonum : nat) (angle : Q) : M Q :=
  let angle := dispatch amplitude wavelength time_milli wavetype servonum angle in
  angle <- (if (side =? side_B) || (side =? side_P)
            then port_side servonum angle else ret angle) ;;
  if (side =? side_B) || (side =? side_S)
  then starboard_side servonum angle else ret angle.

Fixpoint servo_loop (amplitude wavelength time_milli : Q)
    (wavetype side : Z) (servonums : list nat) (angle : Q) : M Q :=
  match servonums with
  | [] => ret angle
  | servonum :: rest =>
      angle <- servo_body amplitude wavelength time_milli wavetype side
                 servonum angle ;;
      servo_loop amplitude wavelength time_milli wavetype side rest angle
  end.

(** [angle0] is the content of the local [angle] when the loop is entered:
    the source declares it without an initial value.  The counter [servonum]
    is a [uint8_t]: with more than 255 servos it wraps and the loop has no
    exit. *)
Definition set_positions (angle0 : Q) (amplitude wavelength time_milli : Q)
    (wavetype side : Z) : M unit :=
  if (255 <? Z.of_nat NUM_SERVOS) then undefined
  else
    servo_loop amplitude wavelength time_milli wavetype side
      (seq 0 NUM_SERVOS) angle0 ;;
    ret tt.

(** ** [servo::drive_fins] *)

(** What [drive_fins] has computed when it reaches [// set positions]. *)
Record blend := mkBlend {
  b_time : time_milli_t;
  b_amp_P : Q;
  b_amp_S : Q;
  b_waveform : Z
}.

(** The deadband test [abs(surge) <= 0.05 && abs(yaw) <= 0.05]. *)
Definition only_sway (surge yaw : Q) : bool :=
  Qle_bool (abs surge) 0.05 && Qle_bool (abs yaw) 0.05.

(** The body of [drive_fins] down to [// set positions].  [pitch] is not
    used by the source, and its block [if (abs(sway) > 0.05) { }] is empty. *)
Definition drive_fins_blend (surge sway pitch yaw amp : Q)
    (time : time_milli_t) : blend :=
  let amp_P := amp in
  let amp_S := amp in
  if only_sway surge yaw then
    let time :=
      if Qgt_bool sway 0 then
        let time_inc_P := (sway * MAX_TIME_INC)%Q in
        let time_inc_P := clamp time_inc_P in
        mkTime (port time + time_inc_P)%Q 0
      else if Qlt_bool sway 0 then
        let time_inc_S := (sway * MAX_TIME_INC)%Q in
        let time_inc_S := clamp time_inc_S in
        mkTime 0 (starboard time + time_inc_S)%Q
      else time in
    mkBlend time amp_P amp_S FLATWAVE
  else
    let time_inc_P := (surge * MAX_TIME_INC)%Q in
    let time_inc_S := (surge * MAX_TIME_INC)%Q in
    let '(time_inc_P, time_inc_S) :=
      if Qgt_bool yaw 0 then
        ((time_inc_P + yaw * MAX_TIME_INC)%Q, (time_inc_S - yaw * MAX_TIME_INC)%Q)
      else if Qlt_bool yaw 0 then
        ((time_inc_P - yaw * MAX_TIME_INC)%Q, (time_inc_S + yaw * MAX_TIME_INC)%Q)
      else (time_inc_P, time_inc_S) in
    let '(amp_P, amp_S) :=
      if Qgt_bool sway 0 then (amp_P, (amp * (1 - sway))%Q)
      else if Qlt_bool sway 0 then ((amp * (1 - sway))%Q, amp_S)
      else (amp_P, amp_S) in
    let time_inc_P := clamp time_inc_P in
    let time_inc_S := clamp time_inc_S in
    let time := mkTime (port time + time_inc_P)%Q
                       (starboard time + time_inc_S)%Q in
    mkBlend time amp_P amp_S SINWAVE.

(** The two calls of [set_positions] select [FLATWAVE] or [SINWAVE]; the
    switch assigns [angle] before its first use, so the initial content of
    that local has no influence here (lemma [set_positions_angle0] below) and
    is taken to be [0]. *)
Definition drive_fins (surge sway pitch yaw amp : Q) (time : time_milli_t)
    : M time_milli_t :=
  let b := drive_fins_blend surge sway pitch yaw amp time in
  set_positions 0 (b_amp_S b) 480 (port (b_time b)) (b_waveform b) side_P ;;
  set_positions 0 (b_amp_P b) 480 (starboard (b_time b)) (b_waveform b) side_S ;;
  ret (b_time b).

End Servo.

(** ** Auxiliary notions used by the statements *)

(** Both history arrays have their five cells. *)
Definition state_ok (st : State) : Prop :=
  length (last_port_angle st) = 5%nat /\
  length (last_starboard_angle st) = 5%nat.

(** [wavetype] is one of the four [case] labels of the switch. *)
Definition known_wavetype {env : Env} (wavetype : Z) : bool :=
  (wavetype =? SINWAVE) || (wavetype =? FLATWAVE) ||
  (wavetype =? STANDINGWAVE) || (wavetype =? SINANDFLAT).

(** The conditions of the two side blocks. *)
Definition port_selected {env : Env} (side : Z) : bool :=
  (side =? side_B) || (side =? side_P).

Definition starboard_selected {env : Env} (side : Z) : bool :=
  (side =? side_B) || (side =? side_S).

(** What one iteration of the loop of [set_positions] does: [mid] is the
    value of [angle] between the two side blocks, [a] its value at the end. *)
Definition step_effect {env : Env} (amplitude wavelength time_milli : Q)
    (wavetype side : Z) (servonum : nat) (angle : Q) (st : State) (a : Q)
    (st' : State) : Prop :=
  exists mid : Q,
    (if port_selected side then
       exists last, last_port_angle st !! servonum = Some last /\
         mid = slew (dispatch amplitude wavelength time_milli wavetype
                       servonum angle + NEUTRALS_PORT servonum) last /\
         last_port_angle st' = <[servonum:=mid]> (last_port_angle st)
     else
       mid = dispatch amplitude wavelength time_milli wavetype servonum angle /\
       last_port_angle st' = last_port_angle st) /\
    (if starboard_selected side then
       exists last, last_starboard_angle st !! servonum = Some last /\
         a = slew (mid + NEUTRALS_STARBOARD servonum) last /\
         last_starboard_angle st' = <[servonum:=a]> (last_starboard_angle st)
     else
       a = mid /\ last_starboard_angle st' = last_starboard_angle st) /\
    pwm st' = pwm st ++
      (if port_selected side then
         [PwmWrite (Z.of_nat servonum) 0
            (arduino_map mid (-90) 90 SERVOMIN SERVOMAX)]
       else []) ++
      (if starboard_selected side then
         [PwmWrite (to_uint8 (Z.of_nat servonum + Z.of_nat NUM_SERVOS)) 0
            (arduino_map (- a) (-90) 90 SERVOMIN SERVOMAX)]
       else []).

(** ** A concrete environment

    Five servos on each side, and rational stand-ins for the waveform
    functions: every one is linear in the amplitude and the flat wave does
    not depend on the servo number.  [arduino_map] is the Arduino core's
    [long map(long, long, long, long, long)], in integer arithmetic.  The
    environment is used to run the code on concrete inputs only. *)
Definition example_env : Env := {|
  NUM_SERVOS := 5;
  SERVOMIN := 150;
  SERVOMAX := 600;
  MAX_ANGLE_DELTA := 5;
  MAX_TIME_INC := 10;
  NEUTRALS_PORT := fun _ => 3%Q;
  NEUTRALS_STARBOARD := fun _ => (-2)%Q;
  SINWAVE := 0;
  FLATWAVE := 1;
  STANDINGWAVE := 2;
  SINANDFLAT := 3;
  side_B := 0;
  side_P := 1;
  side_S := 2;
  calc_angle_sinwave :=
    fun a w t i => (a * (t + inject_Z (Z.of_nat i)) / w)%Q;
  calc_angle_flatwave := fun a w t => (a * t / w)%Q;
  calc_angle_standingwave :=
    fun a w t i => (a * inject_Z (Z.of_nat i) * t / w)%Q;
  calc_angle_sinandflat :=
    fun a w t i => (a * t / w + a * inject_Z (Z.of_nat i) / w)%Q;
  arduino_map :=
    fun x in_min in_max out_min out_max =>
      inject_Z
        (Z.quot ((to_long x - to_long in_min) *
                 (to_long out_max - to_long out_min))
                (to_long in_max - to_long in_min)
         + to_long out_min)
|}.

(** ** [servo::init] *)

Section ServoInit.
Context {env : Env}.
#[local] Open Scope servo_scope.

(** [pwm.begin(); pwm.setOscillatorFrequency(27000000);
    pwm.setPWMFreq(SERVO_FREQ);]: the configuration of the driver.  These
    calls send no channel write and do not touch the histories. *)
Definition driver_setup : M unit := ret tt.

(** [delay(ms)] of the Arduino core: no effect on the state. *)
Definition delay (ms : Z) : M unit := ret tt.

(** [for (int i = 0; i < n; i++) body]. *)
Fixpoint for_loop (n : nat) (body : M unit) : M unit :=
  match n with
  | O => ret tt
  | S k => body ;; for_loop k body
  end.

(** One iteration of the loop of [init].  The wave type is [SINWAVE]: the
    content of the uninitialised local of [set_positions] is never read, and
    is taken to be [0] as in [drive_fins]. *)
Definition homing_step : M unit :=
  set_positions 0 0 240 0 SINWAVE side_B ;;
  delay 100.

Definition init : M unit :=
  driver_setup ;;
  for_loop 30 homing_step.

(** The channel writes one iteration of the loop of [set_positions] issues
    for servo [i], read back from the histories [st']. *)
Definition writes_of (side : Z) (st' : State) (i : nat) : list pwm_write :=
  (if port_selected side then
     [PwmWrite (Z.of_nat i) 0
        (arduino_map (default 0%Q (last_port_angle st' !! i))
           (-90) 90 SERVOMIN SERVOMAX)]
   else []) ++
  (if starboard_selected side then
     [PwmWrite (to_uint8 (Z.of_nat i + Z.of_nat NUM_SERVOS)) 0
        (arduino_map (- default 0%Q (last_starboard_angle st' !! i))
           (-90) 90 SERVOMIN SERVOMAX)]
   else []).

(** [x] lies between [a] and [b], whichever is the larger. *)
Definition between (a x b : Q) : Prop :=
  ((a <= x)%Q /\ (x <= b)%Q) \/ ((b <= x)%Q /\ (x <= a)%Q).

End ServoInit.

(** The concrete environment with a sixth servo on each side. *)
Definition six_servo_env : Env := {|
  NUM_SERVOS := 6;
  SERVOMIN := @SERVOMIN example_env;
  SERVOMAX := @SERVOMAX example_env;
  MAX_ANGLE_DELTA := @MAX_ANGLE_DELTA example_env;
  MAX_TIME_INC := @MAX_TIME_INC example_env;
  NEUTRALS_PORT := @NEUTRALS_PORT example_env;
  NEUTRALS_STARBOARD := @NEUTRALS_STARBOARD example_env;
  SINWAVE := @SINWAVE example_env;
  FLATWAVE := @FLATWAVE example_env;
  STANDINGWAVE := @STANDINGWAVE example_env;
  SINANDFLAT := @SINANDFLAT example_env;
  side_B := @side_B example_env;
  side_P := @side_P example_env;
  side_S := @side_S example_env;
  calc_angle_sinwave := @calc_angle_sinwave example_env;
  calc_angle_flatwave := @calc_angle_flatwave example_env;
  calc_angle_standingwave := @calc_angle_standingwave example_env;
  calc_angle_sinandflat := @calc_angle_sinandflat example_env;
  arduino_map := @arduino_map example_env
|}.

(** ** [set_positions] with rounded [float] sums

    In C++ each [float] sum is rounded to a [float].  The definitions of
    this section are those of [set_positions] above with that rounding made
    explicit: [rnd] maps the exact value of a sum to the [float] the
    program obtains.  The sums are taken to be [float] sums (the constants
    [NEUTRALS_PORT], [NEUTRALS_STARBOARD] and [MAX_ANGLE_DELTA] being [int]
    or [float], or [double] on a board where [double] is [float], as on the
    AVR).  Comparisons and the negation before [map] are exact on floats.
    Overflow to infinity and NaN are not modelled. *)

Section RoundedSums.
Context {env : Env}.
Variable rnd : Q -> Q.
#[local] Open Scope servo_scope.

Definition slew_r (angle last : Q) : Q :=
  if Qgt_bool angle (rnd (last + MAX_ANGLE_DELTA)) then
    rnd (last + MAX_ANGLE_DELTA)
  else if Qlt_bool angle (rnd (last - MAX_ANGLE_DELTA)) then
    rnd (last - MAX_ANGLE_DELTA)
  else angle.

Definition port_side_r (servonum : nat) (angle : Q) : M Q :=
  let angle := rnd (angle + NEUTRALS_PORT servonum) in
  last <- read_port servonum ;;
  let angle := slew_r angle last in
  let pulse_port := arduino_map angle (-90) 90 SERVOMIN SERVOMAX in
  setPWM (Z.of_nat servonum) 0 pulse_port ;;
  write_port servonum angle ;;
  ret angle.

Definition starboard_side_r (servonum : nat) (angle : Q) : M Q :=
  let angle := rnd (angle + NEUTRALS_STARBOARD servonum) in
  last <- read_starboard servonum ;;
  let angle := slew_r angle last in
  let pulse_starboard := arduino_map (- angle) (-90) 90 SERVOMIN SERVOMAX in
  setPWM (to_uint8 (Z.of_nat servonum + Z.of_nat NUM_SERVOS)) 0
         pulse_starboard ;;
  write_starboard servonum angle ;;
  ret angle.

Definition servo_body_r (amplitude wavelength time_milli : Q)
    (wavetype side : Z) (servonum : nat) (angle : Q) : M Q :=
  let angle := dispatch amplitude wavelength time_milli wavetype servonum angle in
  angle <- (if (side =? side_B) || (side =? side_P)
            then port_side_r servonum angle else ret angle) ;;
  if (side =? side_B) || (side =? side_S)
  then starboard_side_r servonum angle else ret angle.

Fixpoint servo_loop_r (amplitude wavelength time_milli : Q)
    (wavetype side : Z) (servonums : list nat) (angle : Q) : M Q :=
  match servonums with
  | [] => ret angle
  | servonum :: rest =>
      angle <- servo_body_r amplitude wavelength time_milli wavetype side
                 servonum angle ;;
      servo_loop_r amplitude wavelength time_milli wavetype side rest angle
  end.

Definition set_positions_r (angle0 : Q) (amplitude wavelength time_milli : Q)
    (wavetype side : Z) : M unit :=
  if (255 <? Z.of_nat NUM_SERVOS) then undefined
  else
    servo_loop_r amplitude wavelength time_milli wavetype side
      (seq 0 NUM_SERVOS) angle0 ;;
    ret tt.



End RoundedSums.

(** Rounding to the nearest IEEE 754 binary32 value, ties to even: a
    significand of 24 bits, [e] the exponent of its last bit, not below
    -149 (subnormal numbers).  Values beyond the largest finite [float] are
    not mapped to infinity. *)
Definition round_binary32 (x : Q) : Q :=
  let n := Qnum x in
  let d := Z.pos (Qden x) in
  if n =? 0 then 0%Q
  else
    let a := Z.abs n in
    let l := Z.log2 a - Z.log2 d in
    let fl := if a * 2 ^ Z.max 0 (- l) <? d * 2 ^ Z.max 0 l
              then l - 1 else l in
    let e := Z.max (fl - 23) (-149) in
    let N := a * 2 ^ Z.max 0 (- e) in
    let D := d * 2 ^ Z.max 0 e in
    let q := N / D in
    let r := N mod D in
    let m := if 2 * r <? D then q
             else if D <? 2 * r then q + 1
             else if Z.even q then q else q + 1 in
    Qmake (Z.sgn n * (m * 2 ^ Z.max 0 e)) (Z.to_pos (2 ^ Z.max 0 (- e))).


(** * Part II: properties *)

(** ** Comparisons *)

Lemma Qlt_bool_iff (x y : Q) : Qlt_bool x y = true <-> (x < y)%Q.
Proof.
  unfold Qlt_bool. rewrite negb_true_iff, <- not_true_iff_false, Qle_bool_iff.
  split; [apply Qnot_le_lt | apply Qlt_not_le].
Qed.

Lemma Qlt_bool_false_iff (x y : Q) : Qlt_bool x y = false <-> (y <= x)%Q.
Proof. unfold Qlt_bool. rewrite negb_false_iff. apply Qle_bool_iff. Qed.

Lemma Qgt_bool_iff (x y : Q) : Qgt_bool x y = true <-> (y < x)%Q.
Proof. apply Qlt_bool_iff. Qed.

Lemma Qgt_bool_false_iff (x y : Q) : Qgt_bool x y = false <-> (x <= y)%Q.
Proof. apply Qlt_bool_false_iff. Qed.

Lemma Qle_bool_false_iff (x y : Q) : Qle_bool x y = false <-> (y < x)%Q.
Proof.
  rewrite <- not_true_iff_false, Qle_bool_iff.
  split; [apply Qnot_le_lt | apply Qlt_not_le].
Qed.

(** The macro [abs] is the absolute value. *)
Lemma abs_Qabs (x : Q) : (abs x == Qabs x)%Q.
Proof.
  unfold abs. destruct (Qgt_bool x 0) eqn:E.
  - apply Qgt_bool_iff in E. symmetry. apply Qabs_pos. lra.
  - apply Qgt_bool_false_iff in E. symmetry. apply Qabs_neg. exact E.
Qed.

(** Case analysis on a [float] comparison, with its meaning in context. *)
Ltac cmp_cases :=
  repeat match goal with
  | |- context [Qgt_bool ?a ?b] =>
      let E := fresh "E" in
      destruct (Qgt_bool a b) eqn:E;
      [apply Qgt_bool_iff in E | apply Qgt_bool_false_iff in E]
  | |- context [Qlt_bool ?a ?b] =>
      let E := fresh "E" in
      destruct (Qlt_bool a b) eqn:E;
      [apply Qlt_bool_iff in E | apply Qlt_bool_false_iff in E]
  end.

Section ClampFacts.
Context {env : Env}.

Lemma clamp_id (x : Q) :
  (- MAX_TIME_INC <= x)%Q -> (x <= MAX_TIME_INC)%Q -> clamp x = x.
Proof. intros Hlo Hhi. unfold clamp. cmp_cases; [lra | lra | reflexivity]. Qed.

Lemma clamp_range (x : Q) :
  (0 <= MAX_TIME_INC)%Q ->
  (- MAX_TIME_INC <= clamp x)%Q /\ (clamp x <= MAX_TIME_INC)%Q.
Proof. intros Hpos. unfold clamp. cmp_cases; lra. Qed.

(** C8.  With a non-negative [MAX_TIME_INC], [clamp] maps every [x] into
    [[-MAX_TIME_INC, MAX_TIME_INC]], returns [x] itself when [x] already
    lies in that interval, and applying it twice is the same as applying it
    once.  [clamp] is a function of its argument alone, defined everywhere. *)
Theorem clamp_range_fixed_idempotent (x : Q) :
  (0 <= MAX_TIME_INC)%Q ->
  ((- MAX_TIME_INC <= clamp x)%Q /\ (clamp x <= MAX_TIME_INC)%Q) /\
  ((- MAX_TIME_INC <= x)%Q /\ (x <= MAX_TIME_INC)%Q -> clamp x = x) /\
  clamp (clamp x) = clamp x.
Proof.
  intros Hpos. split; [| split].
  - apply clamp_range, Hpos.
  - intros [Hlo Hhi]. apply clamp_id; assumption.
  - destruct (clamp_range x Hpos) as [Hlo Hhi]. apply clamp_id; assumption.
Qed.

End ClampFacts.

Lemma clamp_range_fixed_idempotent_witness :
  (0 <= @MAX_TIME_INC example_env)%Q /\
  (((- @MAX_TIME_INC example_env <= @clamp example_env 25)%Q /\
    (@clamp example_env 25 <= @MAX_TIME_INC example_env)%Q) /\
   ((- @MAX_TIME_INC example_env <= 25)%Q /\
    (25 <= @MAX_TIME_INC example_env)%Q -> @clamp example_env 25 = 25%Q) /\
   @clamp example_env (@clamp example_env 25) = @clamp example_env 25).
Proof.
  assert (H : (0 <= @MAX_TIME_INC example_env)%Q) by (simpl; lra).
  split; [exact H |].
  exact (@clamp_range_fixed_idempotent example_env 25 H).
Defined.

(** ** One iteration of the loop of [set_positions] *)

Section SetPositions.
Context {env : Env}.
#[local] Open Scope servo_scope.

Lemma slew_in_range (angle last : Q) :
  (last - MAX_ANGLE_DELTA <= angle)%Q -> (angle <= last + MAX_ANGLE_DELTA)%Q ->
  slew angle last = angle.
Proof. intros Hlo Hhi. unfold slew. cmp_cases; [lra | lra | reflexivity]. Qed.

Lemma port_side_run (servonum : nat) (angle last : Q) (st : State) :
  last_port_angle st !! servonum = Some last ->
  let a := slew (angle + NEUTRALS_PORT servonum) last in
  port_side servonum angle st =
    Some (a, mkState (<[servonum:=a]> (last_port_angle st))
                     (last_starboard_angle st)
                     (pwm st ++ [PwmWrite (Z.of_nat servonum) 0
                                   (arduino_map a (-90) 90 SERVOMIN SERVOMAX)])).
Proof.
  intros Hl. unfold port_side, bind, read_port, setPWM, write_port, ret.
  rewrite Hl. simpl. rewrite Hl. reflexivity.
Qed.

Lemma port_side_undefined (servonum : nat) (angle : Q) (st : State) :
  last_port_angle st !! servonum = None -> port_side servonum angle st = None.
Proof.
  intros Hl. unfold port_side, bind, read_port. rewrite Hl. reflexivity.
Qed.

Lemma starboard_side_run (servonum : nat) (angle last : Q) (st : State) :
  last_starboard_angle st !! servonum = Some last ->
  let a := slew (angle + NEUTRALS_STARBOARD servonum) last in
  starboard_side servonum angle st =
    Some (a, mkState (last_port_angle st)
                     (<[servonum:=a]> (last_starboard_angle st))
                     (pwm st ++
                        [PwmWrite
                           (to_uint8 (Z.of_nat servonum + Z.of_nat NUM_SERVOS)) 0
                           (arduino_map (- a) (-90) 90 SERVOMIN SERVOMAX)])).
Proof.
  intros Hl.
  unfold starboard_side, bind, read_starboard, setPWM, write_starboard, ret.
  rewrite Hl. simpl. rewrite Hl. reflexivity.
Qed.

Lemma starboard_side_undefined (servonum : nat) (angle : Q) (st : State) :
  last_starboard_angle st !! servonum = None ->
  starboard_side servonum angle st = None.
Proof.
  intros Hl. unfold starboard_side, bind, read_starboard. rewrite Hl.
  reflexivity.
Qed.

Lemma servo_body_inv amplitude wavelength time_milli wavetype side
    servonum angle st a st' :
  servo_body amplitude wavelength time_milli wavetype side servonum angle st
    = Some (a, st') ->
  step_effect amplitude wavelength time_milli wavetype side servonum angle
    st a st'.
Proof.
  unfold servo_body, bind, step_effect.
  fold (port_selected side) (starboard_selected side).
  set (a0 := dispatch _ _ _ _ _ _).
  destruct (port_selected side) eqn:EP.
  - destruct (last_port_angle st !! servonum) as [lp|] eqn:Hp.
    + rewrite (port_side_run _ _ _ _ Hp). cbv zeta.
      destruct (starboard_selected side) eqn:ES.
      * destruct (last_starboard_angle st !! servonum) as [ls|] eqn:Hs.
        -- rewrite (starboard_side_run _ _ ls); [| exact Hs]. cbv zeta.
           intros [= <- <-].
           exists (slew (a0 + NEUTRALS_PORT servonum) lp).
           simpl. rewrite <- app_assoc. eauto 10.
        -- rewrite starboard_side_undefined; [discriminate | exact Hs].
      * unfold ret. intros [= <- <-].
        exists (slew (a0 + NEUTRALS_PORT servonum) lp).
        simpl. eauto 10.
    + rewrite (port_side_undefined _ _ _ Hp). discriminate.
  - unfold ret at 1.
    destruct (starboard_selected side) eqn:ES.
    + destruct (last_starboard_angle st !! servonum) as [ls|] eqn:Hs.
      * rewrite (starboard_side_run _ _ ls); [| exact Hs]. cbv zeta.
        intros [= <- <-].
        exists a0. simpl. eauto 10.
      * rewrite starboard_side_undefined; [discriminate | exact Hs].
    + unfold ret. intros [= <- <-].
      exists a0. simpl. rewrite app_nil_r. eauto.
Qed.

Lemma servo_body_defined amplitude wavelength time_milli wavetype side
    servonum angle st :
  state_ok st -> (servonum < 5)%nat ->
  exists a st',
    servo_body amplitude wavelength time_milli wavetype side servonum angle st
      = Some (a, st') /\ state_ok st'.
Proof.
  intros [Hlp Hls] Hi.
  destruct (lookup_lt_is_Some_2 (last_port_angle st) servonum) as [lp Hp];
    [lia |].
  destruct (lookup_lt_is_Some_2 (last_starboard_angle st) servonum) as [ls Hs];
    [lia |].
  unfold servo_body, bind. fold (port_selected side) (starboard_selected side).
  set (a0 := dispatch _ _ _ _ _ _).
  destruct (port_selected side), (starboard_selected side).
  - rewrite (port_side_run _ _ _ _ Hp). cbv zeta.
    rewrite (starboard_side_run _ _ ls); [| exact Hs]. cbv zeta.
    do 2 eexists. split; [reflexivity |].
    split; simpl; rewrite length_insert; assumption.
  - rewrite (port_side_run _ _ _ _ Hp). cbv zeta. unfold ret.
    do 2 eexists. split; [reflexivity |].
    split; simpl; rewrite ?length_insert; assumption.
  - unfold ret at 1. rewrite (starboard_side_run _ _ ls); [| exact Hs].
    cbv zeta. do 2 eexists. split; [reflexivity |].
    split; simpl; rewrite ?length_insert; assumption.
  - unfold ret. do 2 eexists. split; [reflexivity |]. split; assumption.
Qed.

End SetPositions.

(** ** The loop of [set_positions] *)

Section LoopFacts.
Context {env : Env}.
#[local] Open Scope servo_scope.

Lemma dispatch_known amplitude wavelength time_milli wavetype servonum a b :
  known_wavetype wavetype = true ->
  dispatch amplitude wavelength time_milli wavetype servonum a =
  dispatch amplitude wavelength time_milli wavetype servonum b.
Proof.
  unfold known_wavetype, dispatch.
  destruct (wavetype =? SINWAVE), (wavetype =? FLATWAVE),
    (wavetype =? STANDINGWAVE), (wavetype =? SINANDFLAT);
    simpl; intros H; try reflexivity; discriminate H.
Qed.

Lemma dispatch_unknown amplitude wavelength time_milli wavetype servonum a :
  known_wavetype wavetype = false ->
  dispatch amplitude wavelength time_milli wavetype servonum a = a.
Proof.
  unfold known_wavetype, dispatch.
  destruct (wavetype =? SINWAVE), (wavetype =? FLATWAVE),
    (wavetype =? STANDINGWAVE), (wavetype =? SINANDFLAT);
    simpl; intros H; try reflexivity; discriminate H.
Qed.

Lemma servo_loop_cons amplitude wavelength time_milli wavetype side
    servonum rest angle st r :
  servo_loop amplitude wavelength time_milli wavetype side (servonum :: rest)
    angle st = Some r ->
  exists a1 st1,
    servo_body amplitude wavelength time_milli wavetype side servonum angle st
      = Some (a1, st1) /\
    servo_loop amplitude wavelength time_milli wavetype side rest a1 st1
      = Some r.
Proof.
  simpl. unfold bind at 1.
  destruct (servo_body _ _ _ _ _ _ _ _) as [[a1 st1]|]; [| discriminate].
  intros H. exists a1, st1. split; [reflexivity | exact H].
Qed.

Lemma servo_loop_defined amplitude wavelength time_milli wavetype side
    servonums angle st :
  state_ok st -> Forall (fun i => (i < 5)%nat) servonums ->
  exists a st',
    servo_loop amplitude wavelength time_milli wavetype side servonums angle st
      = Some (a, st') /\ state_ok st'.
Proof.
  intros Hok Hall. revert angle st Hok.
  induction Hall as [| i rest Hi _ IH]; intros angle st Hok.
  - exists angle, st. split; [reflexivity | exact Hok].
  - destruct (servo_body_defined amplitude wavelength time_milli wavetype side
                i angle st Hok Hi) as (a1 & st1 & Hb & Hok1).
    destruct (IH a1 st1 Hok1) as (a & st' & Hl & Hok').
    exists a, st'. split; [| exact Hok'].
    simpl. unfold bind at 1. rewrite Hb. exact Hl.
Qed.

(** *** The port history *)

Lemma step_port_other amplitude wavelength time_milli wavetype side
    servonum angle st a st' (i : nat) :
  step_effect amplitude wavelength time_milli wavetype side servonum angle
    st a st' ->
  i <> servonum -> last_port_angle st' !! i = last_port_angle st !! i.
Proof.
  intros (mid & HP & _ & _) Hne.
  destruct (port_selected side).
  - destruct HP as (last & _ & _ & ->).
    apply list_lookup_insert_ne. congruence.
  - destruct HP as [_ ->]. reflexivity.
Qed.

Lemma servo_loop_port_frame amplitude wavelength time_milli wavetype side
    servonums (i : nat) :
  i ∉ servonums ->
  forall angle st a st',
  servo_loop amplitude wavelength time_milli wavetype side servonums angle st
    = Some (a, st') ->
  last_port_angle st' !! i = last_port_angle st !! i.
Proof.
  induction servonums as [| j rest IH]; intros Hnotin angle st a st' H.
  - injection H as _ <-. reflexivity.
  - apply not_elem_of_cons in Hnotin as [Hne Hrest].
    apply servo_loop_cons in H as (a1 & st1 & Hb & Hl).
    rewrite (IH Hrest _ _ _ _ Hl).
    eapply step_port_other; [apply servo_body_inv, Hb | exact Hne].
Qed.

Lemma servo_loop_port_unselected amplitude wavelength time_milli wavetype
    side servonums :
  port_selected side = false ->
  forall angle st a st',
  servo_loop amplitude wavelength time_milli wavetype side servonums angle st
    = Some (a, st') ->
  last_port_angle st' = last_port_angle st.
Proof.
  intros Hsel.
  induction servonums as [| j rest IH]; intros angle st a st' H.
  - injection H as _ <-. reflexivity.
  - apply servo_loop_cons in H as (a1 & st1 & Hb & Hl).
    rewrite (IH _ _ _ _ Hl).
    apply servo_body_inv in Hb as (mid & HP & _ & _).
    rewrite Hsel in HP. apply HP.
Qed.

(** *** The starboard history *)

Lemma step_starboard_other amplitude wavelength time_milli wavetype side
    servonum angle st a st' (i : nat) :
  step_effect amplitude wavelength time_milli wavetype side servonum angle
    st a st' ->
  i <> servonum ->
  last_starboard_angle st' !! i = last_starboard_angle st !! i.
Proof.
  intros (mid & _ & HS & _) Hne.
  destruct (starboard_selected side).
  - destruct HS as (last & _ & _ & ->).
    apply list_lookup_insert_ne. congruence.
  - destruct HS as [_ ->]. reflexivity.
Qed.

Lemma servo_loop_starboard_frame amplitude wavelength time_milli wavetype
    side servonums (i : nat) :
  i ∉ servonums ->
  forall angle st a st',
  servo_loop amplitude wavelength time_milli wavetype side servonums angle st
    = Some (a, st') ->
  last_starboard_angle st' !! i = last_starboard_angle st !! i.
Proof.
  induction servonums as [| j rest IH]; intros Hnotin angle st a st' H.
  - injection H as _ <-. reflexivity.
  - apply not_elem_of_cons in Hnotin as [Hne Hrest].
    apply servo_loop_cons in H as (a1 & st1 & Hb & Hl).
    rewrite (IH Hrest _ _ _ _ Hl).
    eapply step_starboard_other; [apply servo_body_inv, Hb | exact Hne].
Qed.

Lemma servo_loop_starboard_unselected amplitude wavelength time_milli
    wavetype side servonums :
  starboard_selected side = false ->
  forall angle st a st',
  servo_loop amplitude wavelength time_milli wavetype side servonums angle st
    = Some (a, st') ->
  last_starboard_angle st' = last_starboard_angle st.
Proof.
  intros Hsel.
  induction servonums as [| j rest IH]; intros angle st a st' H.
  - injection H as _ <-. reflexivity.
  - apply servo_loop_cons in H as (a1 & st1 & Hb & Hl).
    rewrite (IH _ _ _ _ Hl).
    apply servo_body_inv in Hb as (mid & _ & HS & _).
    rewrite Hsel in HS. apply HS.
Qed.

(** *** The writes to the driver *)

Lemma servo_loop_pwm amplitude wavelength time_milli wavetype side
    servonums :
  forall angle st a st',
  servo_loop amplitude wavelength time_milli wavetype side servonums angle st
    = Some (a, st') ->
  exists ws, pwm st' = pwm st ++ ws /\
    Forall (fun w => exists i : nat, i ∈ servonums /\
              ((port_selected side = true /\ pw_num w = Z.of_nat i) \/
               (starboard_selected side = true /\
                pw_num w = to_uint8 (Z.of_nat i + Z.of_nat NUM_SERVOS)))) ws.
Proof.
  induction servonums as [| j rest IH]; intros angle st a st' H.
  - injection H as _ <-. exists []. split; [symmetry; apply app_nil_r |].
    constructor.
  - apply servo_loop_cons in H as (a1 & st1 & Hb & Hl).
    apply servo_body_inv in Hb as (mid & _ & _ & Hpwm).
    destruct (IH _ _ _ _ Hl) as (ws & Hws & Hall).
    eexists. split.
    + rewrite Hws, Hpwm, <- app_assoc. reflexivity.
    + apply Forall_app. split.
      * apply Forall_app. split.
        -- destruct (port_selected side); constructor; [| constructor].
           exists j. split; [left | auto].
        -- destruct (starboard_selected side); constructor; [| constructor].
           exists j. split; [left | auto].
      * eapply Forall_impl; [exact Hall |].
        intros w (i & Hi & Hw). exists i. split; [right; exact Hi | exact Hw].
Qed.

(** *** The stored angles for a known wave type *)

Lemma servo_loop_values amplitude wavelength time_milli wavetype side
    servonums :
  known_wavetype wavetype = true -> NoDup servonums ->
  forall angle st a st' (i : nat) (lp ls any : Q),
  servo_loop amplitude wavelength time_milli wavetype side servonums angle st
    = Some (a, st') ->
  i ∈ servonums ->
  last_port_angle st !! i = Some lp ->
  last_starboard_angle st !! i = Some ls ->
  let raw := dispatch amplitude wavelength time_milli wavetype i any in
  let mid := if port_selected side
             then slew (raw + NEUTRALS_PORT i) lp else raw in
  (port_selected side = true -> last_port_angle st' !! i = Some mid) /\
  (starboard_selected side = true ->
   last_starboard_angle st' !! i =
     Some (slew (mid + NEUTRALS_STARBOARD i) ls)).
Proof.
  intros Hk Hnd.
  induction Hnd as [| j rest Hj Hnd IH];
    intros angle st a st' i lp ls any H Hin Hlp Hls raw mid.
  - apply elem_of_nil in Hin. destruct Hin.
  - apply servo_loop_cons in H as (a1 & st1 & Hb & Hl).
    apply servo_body_inv in Hb.
    apply elem_of_cons in Hin as [-> | Hin].
    + rewrite (servo_loop_port_frame _ _ _ _ _ _ _ Hj _ _ _ _ Hl).
      rewrite (servo_loop_starboard_frame _ _ _ _ _ _ _ Hj _ _ _ _ Hl).
      destruct Hb as (m & HP & HS & _). subst raw mid.
      rewrite (dispatch_known _ _ _ _ _ any angle Hk).
      split; intros Hsel; rewrite Hsel in *.
      * destruct HP as (last & Hl0 & -> & ->).
        assert (last = lp) by congruence. subst last.
        apply list_lookup_insert_eq, lookup_lt_is_Some_1. eauto.
      * destruct HS as (last & Hl0 & -> & ->).
        assert (last = ls) by congruence. subst last.
        rewrite list_lookup_insert_eq
          by (apply lookup_lt_is_Some_1; eauto).
        destruct (port_selected side).
        -- destruct HP as (last & Hl1 & -> & _).
           assert (last = lp) by congruence. subst last. reflexivity.
        -- destruct HP as [-> _]. reflexivity.
    + assert (Hne : i <> j) by (intros ->; contradiction).
      eapply IH; [exact Hl | exact Hin | |].
      * rewrite (step_port_other _ _ _ _ _ _ _ _ _ _ _ Hb Hne). exact Hlp.
      * rewrite (step_starboard_other _ _ _ _ _ _ _ _ _ _ _ Hb Hne). exact Hls.
Qed.

End LoopFacts.

(** ** [set_positions] as a whole *)

Section SetPositionsFacts.
Context {env : Env}.
#[local] Open Scope servo_scope.

Lemma set_positions_inv angle0 amplitude wavelength time_milli wavetype side
    st u st' :
  set_positions angle0 amplitude wavelength time_milli wavetype side st
    = Some (u, st') ->
  exists a,
    servo_loop amplitude wavelength time_milli wavetype side
      (seq 0 NUM_SERVOS) angle0 st = Some (a, st').
Proof.
  unfold set_positions.
  destruct (255 <? Z.of_nat NUM_SERVOS); [discriminate |].
  unfold bind, ret.
  destruct (servo_loop _ _ _ _ _ _ _ _) as [[a st1]|]; [| discriminate].
  intros [= _ <-]. exists a. reflexivity.
Qed.

Lemma set_positions_defined angle0 amplitude wavelength time_milli wavetype
    side st :
  (NUM_SERVOS <= 5)%nat -> state_ok st ->
  exists st',
    set_positions angle0 amplitude wavelength time_milli wavetype side st
      = Some (tt, st') /\ state_ok st'.
Proof.
  intros HN Hok. unfold set_positions.
  destruct (255 <? Z.of_nat NUM_SERVOS) eqn:E; [apply Z.ltb_lt in E; lia |].
  destruct (servo_loop_defined amplitude wavelength time_milli wavetype side
              (seq 0 NUM_SERVOS) angle0 st Hok) as (a & st' & Hl & Hok').
  { apply Forall_forall. intros i Hi. apply elem_of_seq in Hi. lia. }
  exists st'. split; [| exact Hok'].
  unfold bind, ret. rewrite Hl. reflexivity.
Qed.

(** With a known wave type the switch assigns [angle] in every iteration:
    what the local held before the loop is never read. *)
Lemma set_positions_angle0 a b amplitude wavelength time_milli wavetype side
    st :
  known_wavetype wavetype = true ->
  set_positions a amplitude wavelength time_milli wavetype side st =
  set_positions b amplitude wavelength time_milli wavetype side st.
Proof.
  intros Hk. unfold set_positions.
  destruct (255 <? Z.of_nat NUM_SERVOS); [reflexivity |].
  destruct (seq 0 NUM_SERVOS) as [| i rest]; [reflexivity |].
  cbn [servo_loop]. unfold bind, servo_body.
  rewrite (dispatch_known _ _ _ _ _ a b Hk). reflexivity.
Qed.

(** With an unknown wave type no waveform function is called: amplitude,
    wavelength and time are not used. *)
Lemma servo_loop_unknown_args amplitude wavelength time_milli
    amplitude' wavelength' time_milli' wavetype side servonums :
  known_wavetype wavetype = false ->
  forall angle st,
  servo_loop amplitude wavelength time_milli wavetype side servonums angle st =
  servo_loop amplitude' wavelength' time_milli' wavetype side servonums
    angle st.
Proof.
  intros Hk. induction servonums as [| i rest IH]; intros angle st.
  - reflexivity.
  - simpl. unfold bind, servo_body. rewrite !dispatch_unknown by exact Hk.
    destruct (bind _ _ st) as [[a1 st1]|]; [apply IH | reflexivity].
Qed.

Lemma servo_loop_pwm_length amplitude wavelength time_milli wavetype side
    servonums :
  forall angle st a st',
  servo_loop amplitude wavelength time_milli wavetype side servonums angle st
    = Some (a, st') ->
  length (pwm st') =
    (length (pwm st) +
     length servonums * (Nat.b2n (port_selected side) +
                         Nat.b2n (starboard_selected side)))%nat.
Proof.
  induction servonums as [| j rest IH]; intros angle st a st' H.
  - injection H as _ <-. simpl. lia.
  - apply servo_loop_cons in H as (a1 & st1 & Hb & Hl).
    apply servo_body_inv in Hb as (mid & _ & _ & Hpwm).
    rewrite (IH _ _ _ _ Hl), Hpwm, !length_app.
    destruct (port_selected side), (starboard_selected side); simpl; lia.
Qed.

End SetPositionsFacts.

(** ** Unknown wave types, and the two sides *)

Section SidesFacts.
Context {env : Env}.
#[local] Open Scope servo_scope.

Lemma side_P_selection :
  side_P <> side_B -> side_P <> side_S ->
  port_selected side_P = true /\ starboard_selected side_P = false.
Proof.
  intros H1 H2. unfold port_selected, starboard_selected.
  rewrite Z.eqb_refl, orb_true_r.
  apply Z.eqb_neq in H1, H2. rewrite H1, H2. auto.
Qed.

Lemma side_S_selection :
  side_S <> side_B -> side_P <> side_S ->
  port_selected side_S = false /\ starboard_selected side_S = true.
Proof.
  intros H1 H2. unfold port_selected, starboard_selected.
  rewrite Z.eqb_refl, orb_true_r.
  assert (H3 : side_S <> side_P) by congruence.
  apply Z.eqb_neq in H1, H3. rewrite H1, H3. auto.
Qed.

Lemma set_positions_pwm angle0 amplitude wavelength time_milli wavetype side
    st u st' :
  (NUM_SERVOS <= 5)%nat ->
  set_positions angle0 amplitude wavelength time_milli wavetype side st
    = Some (u, st') ->
  exists ws, pwm st' = pwm st ++ ws /\
    Forall (fun w =>
              (port_selected side = true /\
               0 <= pw_num w < Z.of_nat NUM_SERVOS) \/
              (starboard_selected side = true /\
               Z.of_nat NUM_SERVOS <= pw_num w < 2 * Z.of_nat NUM_SERVOS)) ws.
Proof.
  intros HN Hrun. apply set_positions_inv in Hrun as (a & Hl).
  destruct (servo_loop_pwm _ _ _ _ _ _ _ _ _ _ Hl) as (ws & Hws & Hall).
  exists ws. split; [exact Hws |].
  eapply Forall_impl; [exact Hall |].
  intros w (i & Hi & Hw). apply elem_of_seq in Hi.
  destruct Hw as [[Hsel ->] | [Hsel ->]]; [left | right];
    (split; [exact Hsel |]).
  - lia.
  - unfold to_uint8. rewrite Z.mod_small by lia. lia.
Qed.

(** C10.  With [P], [S] and [B] pairwise distinct, a call of [set_positions]
    with [side = P] returns, leaves the whole starboard history as it was
    and writes to channels below [NUM_SERVOS] only; a call with [side = S]
    returns, leaves the whole port history as it was and writes to channels
    from [NUM_SERVOS] upwards only. *)
Theorem set_positions_side_isolation angle0 amplitude wavelength time_milli
    wavetype st :
  side_P <> side_B -> side_S <> side_B -> side_P <> side_S ->
  (NUM_SERVOS <= 5)%nat -> state_ok st ->
  (exists st',
     set_positions angle0 amplitude wavelength time_milli wavetype side_P st
       = Some (tt, st') /\
     last_starboard_angle st' = last_starboard_angle st /\
     exists ws, pwm st' = pwm st ++ ws /\
       Forall (fun w => 0 <= pw_num w < Z.of_nat NUM_SERVOS) ws) /\
  (exists st',
     set_positions angle0 amplitude wavelength time_milli wavetype side_S st
       = Some (tt, st') /\
     last_port_angle st' = last_port_angle st /\
     exists ws, pwm st' = pwm st ++ ws /\
       Forall (fun w => Z.of_nat NUM_SERVOS <= pw_num w) ws).
Proof.
  intros HPB HSB HPS HN Hok.
  destruct (side_P_selection HPB HPS) as [HPp HPs].
  destruct (side_S_selection HSB HPS) as [HSp HSs].
  split.
  - destruct (set_positions_defined angle0 amplitude wavelength time_milli
                wavetype side_P st HN Hok) as (st' & Hrun & _).
    exists st'. split; [exact Hrun |].
    destruct (set_positions_pwm _ _ _ _ _ _ _ _ _ HN Hrun)
      as (ws & Hws & Hall).
    apply set_positions_inv in Hrun as (a & Hl).
    split; [eapply servo_loop_starboard_unselected; eauto |].
    exists ws. split; [exact Hws |].
    eapply Forall_impl; [exact Hall |].
    intros w [[_ H] | [H _]]; [exact H | congruence].
  - destruct (set_positions_defined angle0 amplitude wavelength time_milli
                wavetype side_S st HN Hok) as (st' & Hrun & _).
    exists st'. split; [exact Hrun |].
    destruct (set_positions_pwm _ _ _ _ _ _ _ _ _ HN Hrun)
      as (ws & Hws & Hall).
    apply set_positions_inv in Hrun as (a & Hl).
    split; [eapply servo_loop_port_unselected; eauto |].
    exists ws. split; [exact Hws |].
    eapply Forall_impl; [exact Hall |].
    intros w [[H _] | [_ H]]; [congruence | lia].
Qed.

(** The stored angles of a call with a known wave type: the port entry is
    the clamped raw angle plus port neutral; the starboard entry is clamped
    from the value [angle] holds after the port block. *)
Lemma set_positions_values angle0 amplitude wavelength time_milli wavetype
    side st u st' (i : nat) (lp ls any : Q) :
  known_wavetype wavetype = true ->
  set_positions angle0 amplitude wavelength time_milli wavetype side st
    = Some (u, st') ->
  (i < NUM_SERVOS)%nat ->
  last_port_angle st !! i = Some lp ->
  last_starboard_angle st !! i = Some ls ->
  let raw := dispatch amplitude wavelength time_milli wavetype i any in
  let mid := if port_selected side
             then slew (raw + NEUTRALS_PORT i) lp else raw in
  (port_selected side = true -> last_port_angle st' !! i = Some mid) /\
  (starboard_selected side = true ->
   last_starboard_angle st' !! i =
     Some (slew (mid + NEUTRALS_STARBOARD i) ls)).
Proof.
  intros Hk Hrun Hi Hlp Hls.
  apply set_positions_inv in Hrun as (a & Hl).
  eapply servo_loop_values; eauto using NoDup_seq.
  apply elem_of_seq. lia.
Qed.

(** The path [side = S] stores the clamped raw angle plus starboard neutral. *)
Lemma set_positions_starboard_only angle0 amplitude wavelength time_milli
    wavetype st u st' (i : nat) (ls any : Q) :
  side_S <> side_B -> side_P <> side_S ->
  known_wavetype wavetype = true ->
  set_positions angle0 amplitude wavelength time_milli wavetype side_S st
    = Some (u, st') ->
  (i < NUM_SERVOS)%nat ->
  last_starboard_angle st !! i = Some ls ->
  last_starboard_angle st' !! i =
    Some (slew (dispatch amplitude wavelength time_milli wavetype i any
                + NEUTRALS_STARBOARD i) ls).
Proof.
  intros HSB HPS Hk Hrun Hi Hls.
  destruct (side_S_selection HSB HPS) as [HSp HSs].
  pose proof Hrun as Hrun'.
  apply set_positions_inv in Hrun' as (a & Hl).
  destruct (last_port_angle st !! i) as [lp|] eqn:Hlp.
  - destruct (set_positions_values _ _ _ _ _ _ _ _ _ i lp ls any Hk Hrun Hi
                Hlp Hls) as [_ H].
    rewrite HSp in H. exact (H HSs).
  - (* the port history is not read on this path *)
    clear Hrun. revert Hl. generalize angle0 as b.
    assert (Hin : i ∈ seq 0 NUM_SERVOS) by (apply elem_of_seq; lia).
    revert Hin Hls. generalize (NoDup_seq 0 NUM_SERVOS).
    generalize (seq 0 NUM_SERVOS) as l. clear Hi Hlp. revert st.
    intros st l Hnd. revert st.
    induction Hnd as [| j rest Hj Hnd IH]; intros st Hin Hls b Hl.
    + apply elem_of_nil in Hin. destruct Hin.
    + apply servo_loop_cons in Hl as (a1 & st1 & Hb & Hl).
      apply servo_body_inv in Hb.
      apply elem_of_cons in Hin as [-> | Hin].
      * rewrite (servo_loop_starboard_frame _ _ _ _ _ _ _ Hj _ _ _ _ Hl).
        destruct Hb as (m & HP & HS & _). rewrite HSp in HP. rewrite HSs in HS.
        destruct HP as [-> _]. destruct HS as (last & Hl0 & -> & ->).
        assert (last = ls) by congruence. subst last.
        rewrite (dispatch_known _ _ _ _ _ any b Hk).
        apply list_lookup_insert_eq, lookup_lt_is_Some_1. eauto.
      * assert (Hne : i <> j) by (intros ->; contradiction).
        eapply IH; [exact Hin | | exact Hl].
        rewrite (step_starboard_other _ _ _ _ _ _ _ _ _ _ _ Hb Hne).
        exact Hls.
Qed.

End SidesFacts.

(** ** Runs of [set_positions] in the concrete environment *)

Section SetPositionsRuns.
#[local] Existing Instance example_env.

Lemma example_env_sides :
  side_P <> side_B /\ side_S <> side_B /\ side_P <> side_S.
Proof. repeat split; discriminate. Qed.

Lemma initial_state_ok : state_ok initial_state.
Proof. split; reflexivity. Qed.

(** C6 at wave type 99.  With a wave type that is none of the four [case]
    labels, [side = P] and the start-up histories, the switch assigns
    nothing to [angle] and the port block still runs on it: the call is not
    a no-op, it changes the port history whatever the uninitialised local
    [angle] holds on entry.  (When it holds 0 the call stores 3, 5, 5, 5, 5:
    servo 0 gets the port neutral 3, and the value carried to the next
    servo, plus 3 again, is clamped to 5.) *)
Lemma set_positions_unknown_wavetype_not_noop :
  known_wavetype 99 = false /\
  set_positions 0 40 480 7 99 side_P initial_state =
    Some (tt, mkState [3; 5; 5; 5; 5]%Q [0; 0; 0; 0; 0]%Q
                (map (fun p => PwmWrite (fst p) 0 (inject_Z (snd p)))
                   [(0, 382); (1, 387); (2, 387); (3, 387); (4, 387)])) /\
  ~ (exists angle0 st',
       set_positions angle0 40 480 7 99 side_P initial_state = Some (tt, st') /\
       last_port_angle st' = last_port_angle initial_state /\
       last_starboard_angle st' = last_starboard_angle initial_state).
Proof.
  split; [reflexivity |]. split; [vm_compute; reflexivity |].
  intros (angle0 & st' & Hrun & Hport & _).
  apply set_positions_inv in Hrun as (a & Hl).
  change (seq 0 NUM_SERVOS) with [0; 1; 2; 3; 4]%nat in Hl.
  apply servo_loop_cons in Hl as (a1 & st1 & Hb1 & Hl).
  apply servo_loop_cons in Hl as (a2 & st2 & Hb2 & Hl).
  assert (H1 : last_port_angle st' !! 1%nat = last_port_angle st2 !! 1%nat).
  { eapply servo_loop_port_frame; [| exact Hl].
    rewrite !not_elem_of_cons. repeat split; try lia. apply not_elem_of_nil. }
  assert (H0 : last_port_angle st' !! 0%nat = last_port_angle st1 !! 0%nat).
  { transitivity (last_port_angle st2 !! 0%nat).
    - eapply servo_loop_port_frame; [| exact Hl].
      rewrite !not_elem_of_cons. repeat split; try lia. apply not_elem_of_nil.
    - eapply step_port_other; [apply servo_body_inv, Hb2 | lia]. }
  apply servo_body_inv in Hb1 as (m1 & HP1 & HS1 & _).
  apply servo_body_inv in Hb2 as (m2 & HP2 & HS2 & _).
  change (port_selected side_P) with true in HP1, HP2.
  change (starboard_selected side_P) with false in HS1, HS2.
  destruct HP1 as (l1 & Hl1 & Hm1 & Hst1), HS1 as [-> _].
  destruct HP2 as (l2 & Hl2 & Hm2 & Hst2).
  rewrite Hst1 in Hl2, H0. rewrite Hst2, Hst1 in H1. rewrite Hport in H0, H1.
  injection Hl1 as <-. injection Hl2 as <-.
  injection H0 as H0. injection H1 as H1.
  rewrite <- H0 in Hm2. rewrite Hm2 in H1. vm_compute in H1. discriminate H1.
Qed.

Lemma set_positions_side_isolation_witness :
  side_P <> side_B /\ side_S <> side_B /\ side_P <> side_S /\
  (NUM_SERVOS <= 5)%nat /\ state_ok initial_state /\
  (exists st',
     set_positions 0 40 480 7 SINWAVE side_P initial_state = Some (tt, st') /\
     last_starboard_angle st' = last_starboard_angle initial_state /\
     exists ws, pwm st' = pwm initial_state ++ ws /\
       Forall (fun w => 0 <= pw_num w < Z.of_nat NUM_SERVOS) ws) /\
  (exists st',
     set_positions 0 40 480 7 SINWAVE side_S initial_state = Some (tt, st') /\
     last_port_angle st' = last_port_angle initial_state /\
     exists ws, pwm st' = pwm initial_state ++ ws /\
       Forall (fun w => Z.of_nat NUM_SERVOS <= pw_num w) ws).
Proof.
  assert (HPB : side_P <> side_B) by discriminate.
  assert (HSB : side_S <> side_B) by discriminate.
  assert (HPS : side_P <> side_S) by discriminate.
  assert (HN : (NUM_SERVOS <= 5)%nat) by (simpl; lia).
  split; [exact HPB |]. split; [exact HSB |]. split; [exact HPS |].
  split; [exact HN |]. split; [exact initial_state_ok |].
  exact (set_positions_side_isolation 0 40 480 7 SINWAVE initial_state
           HPB HSB HPS HN initial_state_ok).
Defined.

(** C7 at [side = B].  The homing call of [init],
    [set_positions(0, 240, 0, SINWAVE, B)], from the start-up histories: the
    raw angle is 0, the port neutral 3 and the starboard neutral -2.  The
    starboard entry of servo 0 becomes 1, the port result 3 plus the
    starboard neutral; the raw angle plus the starboard neutral, clamped
    against the starboard history, is -2, which is what the same call with
    [side = S] stores. *)
Theorem set_positions_both_starboard_from_port_angle :
  exists st_B st_S (stored_B stored_S : Q),
    set_positions 0 0 240 0 SINWAVE side_B initial_state = Some (tt, st_B) /\
    set_positions 0 0 240 0 SINWAVE side_S initial_state = Some (tt, st_S) /\
    last_starboard_angle st_B !! 0%nat = Some stored_B /\
    last_starboard_angle st_S !! 0%nat = Some stored_S /\
    (stored_B == 1)%Q /\
    (stored_S == -2)%Q /\
    stored_S =
      slew (calc_angle_sinwave 0 240 0 0 + NEUTRALS_STARBOARD 0) 0.
Proof.
  do 4 eexists.
  split; [vm_compute; reflexivity |].
  split; [vm_compute; reflexivity |].
  split; [reflexivity |]. split; [reflexivity |].
  split; [reflexivity |]. split; reflexivity.
Qed.

End SetPositionsRuns.

(** ** [drive_fins] *)

Section DriveFinsFacts.
Context {env : Env}.
#[local] Open Scope servo_scope.

Lemma only_sway_iff (surge yaw : Q) :
  only_sway surge yaw = true <->
  (Qabs surge <= 0.05)%Q /\ (Qabs yaw <= 0.05)%Q.
Proof.
  unfold only_sway.
  rewrite andb_true_iff, !Qle_bool_iff, !abs_Qabs. reflexivity.
Qed.

Lemma only_sway_false_iff (surge yaw : Q) :
  only_sway surge yaw = false <->
  (0.05 < Qabs surge)%Q \/ (0.05 < Qabs yaw)%Q.
Proof.
  unfold only_sway.
  rewrite andb_false_iff, !Qle_bool_false_iff, !abs_Qabs. reflexivity.
Qed.

Lemma known_FLATWAVE : known_wavetype FLATWAVE = true.
Proof.
  unfold known_wavetype. rewrite (Z.eqb_refl FLATWAVE).
  rewrite orb_true_r. reflexivity.
Qed.

Lemma known_SINWAVE : known_wavetype SINWAVE = true.
Proof. unfold known_wavetype. rewrite (Z.eqb_refl SINWAVE). reflexivity. Qed.

Lemma blend_waveform surge sway pitch yaw amp time :
  b_waveform (drive_fins_blend surge sway pitch yaw amp time) =
  if only_sway surge yaw then FLATWAVE else SINWAVE.
Proof.
  unfold drive_fins_blend. destruct (only_sway surge yaw); [reflexivity |].
  destruct (Qgt_bool yaw 0), (Qlt_bool yaw 0), (Qgt_bool sway 0),
    (Qlt_bool sway 0); reflexivity.
Qed.

Lemma blend_waveform_known surge sway pitch yaw amp time :
  known_wavetype (b_waveform (drive_fins_blend surge sway pitch yaw amp time))
    = true.
Proof.
  rewrite blend_waveform.
  destruct (only_sway surge yaw); [apply known_FLATWAVE | apply known_SINWAVE].
Qed.

(** The two amplitude variables at [// set positions]. *)
Lemma blend_amplitudes surge sway pitch yaw amp time :
  let b := drive_fins_blend surge sway pitch yaw amp time in
  b_amp_S b = (if negb (only_sway surge yaw) && Qgt_bool sway 0
               then amp * (1 - sway) else amp)%Q /\
  b_amp_P b = (if negb (only_sway surge yaw) && Qlt_bool sway 0
               then amp * (1 - sway) else amp)%Q.
Proof.
  unfold drive_fins_blend.
  destruct (only_sway surge yaw); simpl; [split; reflexivity |].
  destruct (Qgt_bool yaw 0), (Qlt_bool yaw 0); simpl;
    cmp_cases; simpl; (split; [reflexivity | try reflexivity]); lra.
Qed.

(** The phase accumulators in the sway-only branch. *)
Lemma blend_time_only_sway surge sway pitch yaw amp time :
  only_sway surge yaw = true ->
  let t' := b_time (drive_fins_blend surge sway pitch yaw amp time) in
  ((0 < sway)%Q ->
   t' = mkTime (port time + clamp (sway * MAX_TIME_INC))%Q 0) /\
  ((sway < 0)%Q ->
   t' = mkTime 0 (starboard time + clamp (sway * MAX_TIME_INC))%Q) /\
  ((sway == 0)%Q -> t' = time).
Proof.
  intros Hos. unfold drive_fins_blend. rewrite Hos. cbv zeta.
  cmp_cases; simpl; repeat split; intros H; try reflexivity; lra.
Qed.

(** The phase accumulators in the combined branch. *)
Lemma blend_time_combined surge sway pitch yaw amp time :
  only_sway surge yaw = false ->
  exists inc_P inc_S : Q,
    b_time (drive_fins_blend surge sway pitch yaw amp time) =
      mkTime (port time + clamp inc_P)%Q (starboard time + clamp inc_S)%Q /\
    ((0 < yaw)%Q ->
     inc_P = (surge * MAX_TIME_INC + yaw * MAX_TIME_INC)%Q /\
     inc_S = (surge * MAX_TIME_INC - yaw * MAX_TIME_INC)%Q) /\
    ((yaw < 0)%Q ->
     inc_P = (surge * MAX_TIME_INC - yaw * MAX_TIME_INC)%Q /\
     inc_S = (surge * MAX_TIME_INC + yaw * MAX_TIME_INC)%Q) /\
    ((yaw == 0)%Q ->
     inc_P = (surge * MAX_TIME_INC)%Q /\ inc_S = (surge * MAX_TIME_INC)%Q).
Proof.
  intros Hos. unfold drive_fins_blend. rewrite Hos. cbv zeta.
  destruct (Qgt_bool yaw 0) eqn:E1;
    [apply Qgt_bool_iff in E1 | apply Qgt_bool_false_iff in E1];
    [| destruct (Qlt_bool yaw 0) eqn:E2;
       [apply Qlt_bool_iff in E2 | apply Qlt_bool_false_iff in E2]];
    destruct (Qgt_bool sway 0), (Qlt_bool sway 0); simpl;
    do 2 eexists; (split; [reflexivity |]);
    (split; [| split]); intros Hy; try (split; reflexivity); lra.
Qed.

Lemma drive_fins_defined surge sway pitch yaw amp time st :
  (NUM_SERVOS <= 5)%nat -> state_ok st ->
  exists st',
    drive_fins surge sway pitch yaw amp time st =
      Some (b_time (drive_fins_blend surge sway pitch yaw amp time), st') /\
    state_ok st'.
Proof.
  intros HN Hok. unfold drive_fins.
  set (b := drive_fins_blend surge sway pitch yaw amp time).
  destruct (set_positions_defined 0 (b_amp_S b) 480 (port (b_time b))
              (b_waveform b) side_P st HN Hok) as (st1 & H1 & Hok1).
  destruct (set_positions_defined 0 (b_amp_P b) 480 (starboard (b_time b))
              (b_waveform b) side_S st1 HN Hok1) as (st2 & H2 & Hok2).
  exists st2. split; [| exact Hok2].
  unfold bind, ret. rewrite H1, H2. reflexivity.
Qed.

(** What the two calls leave in the histories and send to the driver. *)
Lemma drive_fins_run surge sway pitch yaw amp time st :
  side_P <> side_B -> side_S <> side_B -> side_P <> side_S ->
  (NUM_SERVOS <= 5)%nat -> state_ok st ->
  let b := drive_fins_blend surge sway pitch yaw amp time in
  exists st',
    drive_fins surge sway pitch yaw amp time st = Some (b_time b, st') /\
    length (pwm st') = (length (pwm st) + 2 * NUM_SERVOS)%nat /\
    forall (i : nat) (lp ls any : Q),
      (i < NUM_SERVOS)%nat ->
      last_port_angle st !! i = Some lp ->
      last_starboard_angle st !! i = Some ls ->
      last_port_angle st' !! i =
        Some (slew (dispatch (b_amp_S b) 480 (port (b_time b)) (b_waveform b)
                      i any + NEUTRALS_PORT i) lp) /\
      last_starboard_angle st' !! i =
        Some (slew (dispatch (b_amp_P b) 480 (starboard (b_time b))
                      (b_waveform b) i any + NEUTRALS_STARBOARD i) ls).
Proof.
  intros HPB HSB HPS HN Hok b.
  destruct (side_P_selection HPB HPS) as [HPp HPs].
  destruct (side_S_selection HSB HPS) as [HSp HSs].
  pose proof (blend_waveform_known surge sway pitch yaw amp time) as Hk.
  fold b in Hk.
  destruct (set_positions_defined 0 (b_amp_S b) 480 (port (b_time b))
              (b_waveform b) side_P st HN Hok) as (st1 & H1 & Hok1).
  destruct (set_positions_defined 0 (b_amp_P b) 480 (starboard (b_time b))
              (b_waveform b) side_S st1 HN Hok1) as (st2 & H2 & Hok2).
  exists st2. split.
  { unfold drive_fins. fold b. unfold bind, ret. rewrite H1, H2. reflexivity. }
  destruct (set_positions_inv _ _ _ _ _ _ _ _ _ H1) as (a1 & L1).
  destruct (set_positions_inv _ _ _ _ _ _ _ _ _ H2) as (a2 & L2).
  split.
  { rewrite (servo_loop_pwm_length _ _ _ _ _ _ _ _ _ _ L2).
    rewrite (servo_loop_pwm_length _ _ _ _ _ _ _ _ _ _ L1).
    rewrite HPp, HPs, HSp, HSs, length_seq. simpl. lia. }
  intros i lp ls any Hi Hlp Hls. split.
  - rewrite (servo_loop_port_unselected _ _ _ _ _ _ HSp _ _ _ _ L2).
    destruct (set_positions_values _ _ _ _ _ _ _ _ _ i lp ls any Hk H1 Hi
                Hlp Hls) as [H _].
    rewrite HPp in H. exact (H eq_refl).
  - eapply set_positions_starboard_only; eauto.
    rewrite (servo_loop_starboard_unselected _ _ _ _ _ _ HPs _ _ _ _ L1).
    exact Hls.
Qed.

End DriveFinsFacts.

(** ** The statements about [drive_fins] *)

Section DriveFinsClaims.
Context {env : Env}.
#[local] Open Scope servo_scope.

(** C1.  Every call of [drive_fins] ends with two calls of [set_positions]:
    the first with [amp_S], the updated [time.port] and [side = P], the
    second with [amp_P], the updated [time.starboard] and [side = S], where
    [amp_S] is the variable changed to [amp * (1 - sway)] by a positive sway
    in the combined branch and [amp_P] the one changed by a negative sway.
    In the histories: every port entry is clamped from the wave computed
    with [amp_S], every starboard entry from the wave computed with
    [amp_P]. *)
Theorem drive_fins_cross_amplitudes surge sway pitch yaw amp time st :
  side_P <> side_B -> side_S <> side_B -> side_P <> side_S ->
  (NUM_SERVOS <= 5)%nat -> state_ok st ->
  let b := drive_fins_blend surge sway pitch yaw amp time in
  (b_amp_S b = (if negb (only_sway surge yaw) && Qgt_bool sway 0
                then amp * (1 - sway) else amp)%Q /\
   b_amp_P b = (if negb (only_sway surge yaw) && Qlt_bool sway 0
                then amp * (1 - sway) else amp)%Q) /\
  drive_fins surge sway pitch yaw amp time st =
    (set_positions 0 (b_amp_S b) 480 (port (b_time b)) (b_waveform b) side_P ;;
     set_positions 0 (b_amp_P b) 480 (starboard (b_time b)) (b_waveform b)
       side_S ;;
     ret (b_time b)) st /\
  exists st',
    drive_fins surge sway pitch yaw amp time st = Some (b_time b, st') /\
    forall (i : nat) (lp ls any : Q),
      (i < NUM_SERVOS)%nat ->
      last_port_angle st !! i = Some lp ->
      last_starboard_angle st !! i = Some ls ->
      last_port_angle st' !! i =
        Some (slew (dispatch (b_amp_S b) 480 (port (b_time b)) (b_waveform b)
                      i any + NEUTRALS_PORT i) lp) /\
      last_starboard_angle st' !! i =
        Some (slew (dispatch (b_amp_P b) 480 (starboard (b_time b))
                      (b_waveform b) i any + NEUTRALS_STARBOARD i) ls).
Proof.
  intros HPB HSB HPS HN Hok b.
  split; [apply blend_amplitudes |].
  split; [reflexivity |].
  destruct (drive_fins_run surge sway pitch yaw amp time st HPB HSB HPS HN Hok)
    as (st' & Hrun & _ & Hval).
  exists st'. split; [exact Hrun | exact Hval].
Qed.

(** C3.  When [|surge| <= 0.05], [|yaw| <= 0.05] and [sway] is not zero,
    [drive_fins] returns, both calls of [set_positions] get [FLATWAVE], and
    of the returned accumulators: for [sway > 0] the port one is the old one
    plus [clamp(sway * MAX_TIME_INC)] and the starboard one is 0; for
    [sway < 0] the starboard one is the old one plus
    [clamp(sway * MAX_TIME_INC)] and the port one is 0.  In particular, with
    a positive [MAX_TIME_INC], [drive_fins(0, 0.5, 0, 0, amp, {0, 0})]
    returns starboard 0 and port greater than 0. *)
Theorem drive_fins_pure_sway surge sway pitch yaw amp time st :
  (Qabs surge <= 0.05)%Q -> (Qabs yaw <= 0.05)%Q -> ~ (sway == 0)%Q ->
  (NUM_SERVOS <= 5)%nat -> state_ok st ->
  (exists t' st',
     drive_fins surge sway pitch yaw amp time st = Some (t', st') /\
     drive_fins surge sway pitch yaw amp time st =
       (set_positions 0 amp 480 (port t') FLATWAVE side_P ;;
        set_positions 0 amp 480 (starboard t') FLATWAVE side_S ;;
        ret t') st /\
     ((0 < sway)%Q ->
      t' = mkTime (port time + clamp (sway * MAX_TIME_INC))%Q 0) /\
     ((sway < 0)%Q ->
      t' = mkTime 0 (starboard time + clamp (sway * MAX_TIME_INC))%Q)) /\
  ((0 < MAX_TIME_INC)%Q ->
   exists t' st',
     drive_fins 0 0.5 0 0 amp (mkTime 0 0) st = Some (t', st') /\
     starboard t' = 0%Q /\ (0 < port t')%Q).
Proof.
  intros Hsurge Hyaw Hsway HN Hok. split.
  - assert (Hos : only_sway surge yaw = true) by (apply only_sway_iff; auto).
    destruct (drive_fins_defined surge sway pitch yaw amp time st HN Hok)
      as (st' & Hrun & _).
    pose proof (blend_amplitudes surge sway pitch yaw amp time) as [HaS HaP].
    pose proof (blend_waveform surge sway pitch yaw amp time) as Hw.
    destruct (blend_time_only_sway surge sway pitch yaw amp time Hos)
      as (Hpos & Hneg & _).
    rewrite Hos in HaS, HaP, Hw. simpl in HaS, HaP.
    eexists _, st'. split; [exact Hrun |].
    split; [| split; [exact Hpos | exact Hneg]].
    unfold drive_fins. rewrite HaS, HaP, Hw. reflexivity.
  - intros HM.
    assert (Hos : only_sway 0 0 = true) by reflexivity.
    destruct (drive_fins_defined 0 0.5 0 0 amp (mkTime 0 0) st HN Hok)
      as (st' & Hrun & _).
    destruct (blend_time_only_sway 0 0.5 0 0 amp (mkTime 0 0) Hos)
      as (Hpos & _ & _).
    eexists _, st'. split; [exact Hrun |].
    rewrite Hpos by reflexivity. simpl. split; [reflexivity |].
    rewrite clamp_id; lra.
Qed.

(** In the combined branch the sign of [yaw] has no effect on the
    increments: for either sign the port increment is raised, and the
    starboard increment lowered, by [|yaw| * MAX_TIME_INC]. *)
Remark blend_time_combined_abs_yaw surge sway pitch yaw amp time :
  only_sway surge yaw = false ->
  exists inc_P inc_S : Q,
    b_time (drive_fins_blend surge sway pitch yaw amp time) =
      mkTime (port time + clamp inc_P)%Q (starboard time + clamp inc_S)%Q /\
    (inc_P == surge * MAX_TIME_INC + Qabs yaw * MAX_TIME_INC)%Q /\
    (inc_S == surge * MAX_TIME_INC - Qabs yaw * MAX_TIME_INC)%Q.
Proof.
  intros Hos.
  destruct (blend_time_combined surge sway pitch yaw amp time Hos)
    as (inc_P & inc_S & Ht & Hpos & Hneg & Hzero).
  exists inc_P, inc_S. split; [exact Ht |].
  destruct (Q_dec yaw 0) as [[Hlt | Hgt] | Heq].
  - destruct (Hneg Hlt) as [-> ->].
    rewrite (Qabs_neg yaw) by lra. split; ring.
  - destruct (Hpos Hgt) as [-> ->].
    rewrite (Qabs_pos yaw) by lra. split; ring.
  - destruct (Hzero Heq) as [-> ->].
    assert (Ha : (Qabs yaw == 0)%Q) by (rewrite Heq; reflexivity).
    rewrite Ha. split; ring.
Qed.

(** C9.  When [|surge| <= 0.05], [|yaw| <= 0.05] and [sway] is zero,
    [drive_fins] returns the accumulators it was given, and still issues
    both calls of [set_positions], with [FLATWAVE] and the unchanged
    amplitude: every servo of both sides is written once. *)
Theorem drive_fins_zero_sway surge sway pitch yaw amp time st :
  (Qabs surge <= 0.05)%Q -> (Qabs yaw <= 0.05)%Q -> (sway == 0)%Q ->
  side_P <> side_B -> side_S <> side_B -> side_P <> side_S ->
  (NUM_SERVOS <= 5)%nat -> state_ok st ->
  exists st',
    drive_fins surge sway pitch yaw amp time st = Some (time, st') /\
    drive_fins surge sway pitch yaw amp time st =
      (set_positions 0 amp 480 (port time) FLATWAVE side_P ;;
       set_positions 0 amp 480 (starboard time) FLATWAVE side_S ;;
       ret time) st /\
    length (pwm st') = (length (pwm st) + 2 * NUM_SERVOS)%nat /\
    forall (i : nat) (lp ls any : Q),
      (i < NUM_SERVOS)%nat ->
      last_port_angle st !! i = Some lp ->
      last_starboard_angle st !! i = Some ls ->
      last_port_angle st' !! i =
        Some (slew (dispatch amp 480 (port time) FLATWAVE i any
                    + NEUTRALS_PORT i) lp) /\
      last_starboard_angle st' !! i =
        Some (slew (dispatch amp 480 (starboard time) FLATWAVE i any
                    + NEUTRALS_STARBOARD i) ls).
Proof.
  intros Hsurge Hyaw Hsway HPB HSB HPS HN Hok.
  assert (Hos : only_sway surge yaw = true) by (apply only_sway_iff; auto).
  destruct (drive_fins_run surge sway pitch yaw amp time st HPB HSB HPS HN Hok)
    as (st' & Hrun & Hlen & Hval).
  pose proof (blend_amplitudes surge sway pitch yaw amp time) as [HaS HaP].
  pose proof (blend_waveform surge sway pitch yaw amp time) as Hw.
  destruct (blend_time_only_sway surge sway pitch yaw amp time Hos)
    as (_ & _ & Hzero).
  specialize (Hzero Hsway).
  rewrite Hos in HaS, HaP, Hw. simpl in HaS, HaP.
  rewrite HaS, HaP, Hw, Hzero in Hval. rewrite Hzero in Hrun.
  exists st'. split; [exact Hrun |]. split; [| split; [exact Hlen | exact Hval]].
  unfold drive_fins. rewrite HaS, HaP, Hw, Hzero. reflexivity.
Qed.

End DriveFinsClaims.

(** ** The amplitudes in the combined branch *)

Section AmplitudeFacts.
Context {env : Env}.

(** A positive sway multiplies [amp_S] by [1 - sway]; up to [sway = 1] this
    lowers its magnitude. *)
Lemma blend_positive_sway surge sway pitch yaw amp time :
  only_sway surge yaw = false -> (0 < sway)%Q ->
  let b := drive_fins_blend surge sway pitch yaw amp time in
  b_amp_S b = (amp * (1 - sway))%Q /\ b_amp_P b = amp /\
  ((sway <= 1)%Q -> (Qabs (b_amp_S b) <= Qabs amp)%Q).
Proof.
  intros Hos Hs b.
  destruct (blend_amplitudes surge sway pitch yaw amp time) as [HS HP].
  fold b in HS, HP. rewrite Hos in HS, HP. simpl in HS, HP.
  assert (E1 : Qgt_bool sway 0 = true) by (apply Qgt_bool_iff; exact Hs).
  assert (E2 : Qlt_bool sway 0 = false) by (apply Qlt_bool_false_iff; lra).
  rewrite E1 in HS. rewrite E2 in HP.
  split; [exact HS |]. split; [exact HP |].
  intros Hle. rewrite HS, Qabs_Qmult, (Qabs_pos (1 - sway)) by lra.
  pose proof (Qabs_nonneg amp). nra.
Qed.

(** A negative sway multiplies [amp_P] by [1 - sway], which is more than 1:
    the magnitude of a non-zero amplitude grows. *)
Lemma blend_negative_sway surge sway pitch yaw amp time :
  only_sway surge yaw = false -> (sway < 0)%Q ->
  let b := drive_fins_blend surge sway pitch yaw amp time in
  b_amp_P b = (amp * (1 - sway))%Q /\ b_amp_S b = amp /\
  (~ (amp == 0)%Q -> (Qabs amp < Qabs (b_amp_P b))%Q).
Proof.
  intros Hos Hs b.
  destruct (blend_amplitudes surge sway pitch yaw amp time) as [HS HP].
  fold b in HS, HP. rewrite Hos in HS, HP. simpl in HS, HP.
  assert (E1 : Qgt_bool sway 0 = false) by (apply Qgt_bool_false_iff; lra).
  assert (E2 : Qlt_bool sway 0 = true) by (apply Qlt_bool_iff; exact Hs).
  rewrite E1 in HS. rewrite E2 in HP.
  split; [exact HP |]. split; [exact HS |].
  intros Hnz. rewrite HP, Qabs_Qmult, (Qabs_pos (1 - sway)) by lra.
  assert (0 < Qabs amp)%Q.
  { apply (Qabs_case amp (fun a => 0 < a)%Q); intros Ha.
    - destruct (Qle_lt_or_eq _ _ Ha) as [H | H]; [exact H |].
      exfalso. apply Hnz. symmetry. exact H.
    - destruct (Qle_lt_or_eq _ _ Ha) as [H | H]; [lra |].
      exfalso. apply Hnz. exact H. }
  nra.
Qed.

End AmplitudeFacts.

(** ** Runs of [drive_fins] in the concrete environment *)

Section DriveFinsRuns.
#[local] Existing Instance example_env.
#[local] Open Scope servo_scope.

Lemma example_env_servos : (NUM_SERVOS <= 5)%nat.
Proof. simpl. lia. Qed.

Lemma drive_fins_cross_amplitudes_witness :
  side_P <> side_B /\ side_S <> side_B /\ side_P <> side_S /\
  (NUM_SERVOS <= 5)%nat /\ state_ok initial_state /\
  let b := drive_fins_blend 1 0.5 0 0 10 (mkTime 0 0) in
  (b_amp_S b = (if negb (only_sway 1 0) && Qgt_bool 0.5 0
                then 10 * (1 - 0.5) else 10)%Q /\
   b_amp_P b = (if negb (only_sway 1 0) && Qlt_bool 0.5 0
                then 10 * (1 - 0.5) else 10)%Q) /\
  drive_fins 1 0.5 0 0 10 (mkTime 0 0) initial_state =
    (set_positions 0 (b_amp_S b) 480 (port (b_time b)) (b_waveform b) side_P ;;
     set_positions 0 (b_amp_P b) 480 (starboard (b_time b)) (b_waveform b)
       side_S ;;
     ret (b_time b)) initial_state /\
  exists st',
    drive_fins 1 0.5 0 0 10 (mkTime 0 0) initial_state
      = Some (b_time b, st') /\
    forall (i : nat) (lp ls any : Q),
      (i < NUM_SERVOS)%nat ->
      last_port_angle initial_state !! i = Some lp ->
      last_starboard_angle initial_state !! i = Some ls ->
      last_port_angle st' !! i =
        Some (slew (dispatch (b_amp_S b) 480 (port (b_time b)) (b_waveform b)
                      i any + NEUTRALS_PORT i) lp) /\
      last_starboard_angle st' !! i =
        Some (slew (dispatch (b_amp_P b) 480 (starboard (b_time b))
                      (b_waveform b) i any + NEUTRALS_STARBOARD i) ls).
Proof.
  destruct example_env_sides as (HPB & HSB & HPS).
  split; [exact HPB |]. split; [exact HSB |]. split; [exact HPS |].
  split; [exact example_env_servos |]. split; [exact initial_state_ok |].
  exact (drive_fins_cross_amplitudes 1 0.5 0 0 10 (mkTime 0 0) initial_state
           HPB HSB HPS example_env_servos initial_state_ok).
Defined.

Lemma drive_fins_pure_sway_witness :
  (Qabs 0 <= 0.05)%Q /\ (Qabs 0 <= 0.05)%Q /\ ~ (0.5 == 0)%Q /\
  (NUM_SERVOS <= 5)%nat /\ state_ok initial_state /\
  (exists t' st',
     drive_fins 0 0.5 0 0 10 (mkTime 0 0) initial_state = Some (t', st') /\
     drive_fins 0 0.5 0 0 10 (mkTime 0 0) initial_state =
       (set_positions 0 10 480 (port t') FLATWAVE side_P ;;
        set_positions 0 10 480 (starboard t') FLATWAVE side_S ;;
        ret t') initial_state /\
     ((0 < 0.5)%Q ->
      t' = mkTime (port (mkTime 0 0) + clamp (0.5 * MAX_TIME_INC))%Q 0) /\
     ((0.5 < 0)%Q ->
      t' = mkTime 0 (starboard (mkTime 0 0) + clamp (0.5 * MAX_TIME_INC))%Q)) /\
  ((0 < MAX_TIME_INC)%Q ->
   exists t' st',
     drive_fins 0 0.5 0 0 10 (mkTime 0 0) initial_state = Some (t', st') /\
     starboard t' = 0%Q /\ (0 < port t')%Q).
Proof.
  assert (H0 : (Qabs 0 <= 0.05)%Q) by (apply Qle_bool_iff; reflexivity).
  assert (Hs : ~ (0.5 == 0)%Q) by (intros H; discriminate H).
  split; [exact H0 |]. split; [exact H0 |]. split; [exact Hs |].
  split; [exact example_env_servos |]. split; [exact initial_state_ok |].
  exact (drive_fins_pure_sway 0 0.5 0 0 10 (mkTime 0 0) initial_state
           H0 H0 Hs example_env_servos initial_state_ok).
Defined.

Lemma drive_fins_zero_sway_witness :
  (Qabs 0.03 <= 0.05)%Q /\ (Qabs (-0.05) <= 0.05)%Q /\ (0 == 0)%Q /\
  side_P <> side_B /\ side_S <> side_B /\ side_P <> side_S /\
  (NUM_SERVOS <= 5)%nat /\ state_ok initial_state /\
  exists st',
    drive_fins 0.03 0 0 (-0.05) 10 (mkTime 7 9) initial_state
      = Some (mkTime 7 9, st') /\
    drive_fins 0.03 0 0 (-0.05) 10 (mkTime 7 9) initial_state =
      (set_positions 0 10 480 (port (mkTime 7 9)) FLATWAVE side_P ;;
       set_positions 0 10 480 (starboard (mkTime 7 9)) FLATWAVE side_S ;;
       ret (mkTime 7 9)) initial_state /\
    length (pwm st') = (length (pwm initial_state) + 2 * NUM_SERVOS)%nat /\
    forall (i : nat) (lp ls any : Q),
      (i < NUM_SERVOS)%nat ->
      last_port_angle initial_state !! i = Some lp ->
      last_starboard_angle initial_state !! i = Some ls ->
      last_port_angle st' !! i =
        Some (slew (dispatch 10 480 (port (mkTime 7 9)) FLATWAVE i any
                    + NEUTRALS_PORT i) lp) /\
      last_starboard_angle st' !! i =
        Some (slew (dispatch 10 480 (starboard (mkTime 7 9)) FLATWAVE i any
                    + NEUTRALS_STARBOARD i) ls).
Proof.
  assert (H1 : (Qabs 0.03 <= 0.05)%Q) by (apply Qle_bool_iff; reflexivity).
  assert (H2 : (Qabs (-0.05) <= 0.05)%Q) by (apply Qle_bool_iff; reflexivity).
  assert (H3 : (0 == 0)%Q) by reflexivity.
  destruct example_env_sides as (HPB & HSB & HPS).
  split; [exact H1 |]. split; [exact H2 |]. split; [exact H3 |].
  split; [exact HPB |]. split; [exact HSB |]. split; [exact HPS |].
  split; [exact example_env_servos |]. split; [exact initial_state_ok |].
  exact (drive_fins_zero_sway 0.03 0 0 (-0.05) 10 (mkTime 7 9) initial_state
           H1 H2 H3 HPB HSB HPS example_env_servos initial_state_ok).
Defined.

(** C5 at a negative sway.  [drive_fins(1, -0.5, 0, 0, 10, {0, 0})] takes the
    combined branch and reaches [// set positions] with [amp_P] equal to 15
    and [amp_S] equal to 10: the amplitude that is changed is raised, not
    lowered.  With [sway = 0.5] the changed amplitude, [amp_S], is 5. *)
Theorem drive_fins_negative_sway_raises_amplitude :
  let b := drive_fins_blend 1 (-0.5) 0 0 10 (mkTime 0 0) in
  let b' := drive_fins_blend 1 0.5 0 0 10 (mkTime 0 0) in
  only_sway 1 0 = false /\
  (b_amp_P b == 15)%Q /\ b_amp_S b = 10%Q /\
  ~ (Qabs (b_amp_P b) <= Qabs 10)%Q /\
  (b_amp_S b' == 5)%Q /\ b_amp_P b' = 10%Q.
Proof.
  repeat split; try reflexivity.
  intros H. apply Qle_bool_iff in H. discriminate H.
Qed.

End DriveFinsRuns.

(** * Part III: further properties of the module *)

(** ** [clamp] as a function on the line *)

Section ClampShape.
Context {env : Env}.

Lemma Qabs_bounds (x : Q) : (x <= Qabs x)%Q /\ (- x <= Qabs x)%Q /\ (0 <= Qabs x)%Q.
Proof.
  split; [apply Qle_Qabs |]. split; [| apply Qabs_nonneg].
  rewrite <- Qabs_opp. apply Qle_Qabs.
Qed.

(** X1.  With a non-negative [MAX_TIME_INC], [clamp] keeps the order of its
    inputs and never moves two inputs further apart. *)
Theorem clamp_monotone_nonexpansive (x y : Q) :
  (0 <= MAX_TIME_INC)%Q ->
  ((x <= y)%Q -> (clamp x <= clamp y)%Q) /\
  (Qabs (clamp x - clamp y) <= Qabs (x - y))%Q.
Proof.
  intros HM. split.
  - intros Hxy. unfold clamp. cmp_cases; lra.
  - apply Qabs_Qle_condition.
    destruct (Qabs_bounds (x - y)) as (H1 & H2 & H3).
    unfold clamp. cmp_cases; lra.
Qed.

(** X2.  With a non-negative [MAX_TIME_INC], [clamp] is odd, and its result
    is never larger in magnitude than its input, nor of the opposite sign. *)
Theorem clamp_odd_shrinks (x : Q) :
  (0 <= MAX_TIME_INC)%Q ->
  (clamp (- x) == - clamp x)%Q /\
  (Qabs (clamp x) <= Qabs x)%Q /\
  ((0 <= x)%Q -> (0 <= clamp x)%Q) /\
  ((x <= 0)%Q -> (clamp x <= 0)%Q).
Proof.
  intros HM. split; [| split; [| split]].
  - unfold clamp. cmp_cases; lra.
  - apply Qabs_Qle_condition.
    destruct (Qabs_bounds x) as (H1 & H2 & H3).
    unfold clamp. cmp_cases; lra.
  - intros Hx. unfold clamp. cmp_cases; lra.
  - intros Hx. unfold clamp. cmp_cases; lra.
Qed.

End ClampShape.

Lemma clamp_monotone_nonexpansive_witness :
  (0 <= @MAX_TIME_INC example_env)%Q /\
  ((4 <= 25)%Q -> (@clamp example_env 4 <= @clamp example_env 25)%Q) /\
  (Qabs (@clamp example_env 4 - @clamp example_env 25) <= Qabs (4 - 25))%Q.
Proof.
  assert (H : (0 <= @MAX_TIME_INC example_env)%Q) by (simpl; lra).
  split; [exact H |].
  exact (@clamp_monotone_nonexpansive example_env 4 25 H).
Defined.

Lemma clamp_odd_shrinks_witness :
  (0 <= @MAX_TIME_INC example_env)%Q /\
  (@clamp example_env (- (25)) == - @clamp example_env 25)%Q /\
  (Qabs (@clamp example_env 25) <= Qabs 25)%Q /\
  ((0 <= 25)%Q -> (0 <= @clamp example_env 25)%Q) /\
  ((25 <= 0)%Q -> (@clamp example_env 25 <= 0)%Q).
Proof.
  assert (H : (0 <= @MAX_TIME_INC example_env)%Q) by (simpl; lra).
  split; [exact H |].
  exact (@clamp_odd_shrinks example_env 25 H).
Defined.

(** ** [set_positions]: unknown sides, array bounds, the driver *)

Section SetPositionsEdges.
Context {env : Env}.
#[local] Open Scope servo_scope.

Lemma servo_loop_unselected amplitude wavelength time_milli wavetype side
    servonums :
  port_selected side = false -> starboard_selected side = false ->
  forall angle st, exists a,
    servo_loop amplitude wavelength time_milli wavetype side servonums angle st
      = Some (a, st).
Proof.
  intros HP HS. induction servonums as [| i rest IH]; intros angle st.
  - exists angle. reflexivity.
  - cbn [servo_loop]. unfold bind at 1, servo_body, bind.
    fold (port_selected side) (starboard_selected side).
    rewrite HP, HS. unfold ret at 1 2. apply IH.
Qed.

(** X3.  A [side] that is none of [B], [P] and [S] selects no bank: the call
    returns and changes nothing, neither history nor driver, whatever the
    wave type and the state of the histories. *)
Theorem set_positions_unknown_side angle0 amplitude wavelength time_milli
    wavetype side st :
  side <> side_B -> side <> side_P -> side <> side_S ->
  (NUM_SERVOS <= 255)%nat ->
  set_positions angle0 amplitude wavelength time_milli wavetype side st
    = Some (tt, st).
Proof.
  intros HB HP HS HN.
  assert (Hp : port_selected side = false).
  { unfold port_selected. apply Z.eqb_neq in HB, HP. rewrite HB, HP.
    reflexivity. }
  assert (Hs : starboard_selected side = false).
  { unfold starboard_selected. apply Z.eqb_neq in HB, HS. rewrite HB, HS.
    reflexivity. }
  unfold set_positions.
  destruct (255 <? Z.of_nat NUM_SERVOS) eqn:E; [apply Z.ltb_lt in E; lia |].
  destruct (servo_loop_unselected amplitude wavelength time_milli wavetype
              side (seq 0 NUM_SERVOS) Hp Hs angle0 st) as (a & Hl).
  unfold bind, ret. rewrite Hl. reflexivity.
Qed.

Lemma servo_loop_app amplitude wavelength time_milli wavetype side l1 l2 :
  forall angle st,
  servo_loop amplitude wavelength time_milli wavetype side (l1 ++ l2) angle st
  = match servo_loop amplitude wavelength time_milli wavetype side l1 angle st
    with
    | Some (a1, st1) =>
        servo_loop amplitude wavelength time_milli wavetype side l2 a1 st1
    | None => None
    end.
Proof.
  induction l1 as [| i rest IH]; intros angle st.
  - reflexivity.
  - cbn [app servo_loop]. unfold bind.
    destruct (servo_body _ _ _ _ _ _ _ _) as [[a1 st1]|]; [apply IH |].
    reflexivity.
Qed.

Lemma servo_body_out_of_bounds amplitude wavelength time_milli wavetype side
    servonum angle st :
  state_ok st -> (5 <= servonum)%nat ->
  port_selected side || starboard_selected side = true ->
  servo_body amplitude wavelength time_milli wavetype side servonum angle st
    = None.
Proof.
  intros [Hlp Hls] Hi Hsel.
  assert (Hp : last_port_angle st !! servonum = None)
    by (apply lookup_ge_None; lia).
  assert (Hs : last_starboard_angle st !! servonum = None)
    by (apply lookup_ge_None; lia).
  unfold servo_body, bind.
  fold (port_selected side) (starboard_selected side).
  destruct (port_selected side).
  - rewrite port_side_undefined by exact Hp. reflexivity.
  - simpl in Hsel. rewrite Hsel. unfold ret at 1.
    apply starboard_side_undefined, Hs.
Qed.

(** X4.  The histories have five cells: with more than five servos, a call
    that selects a bank runs past the end of [last_port_angle] or
    [last_starboard_angle] at servo 5, and its behaviour is undefined. *)
Theorem set_positions_overruns_histories angle0 amplitude wavelength
    time_milli wavetype side st :
  state_ok st -> (5 < NUM_SERVOS)%nat ->
  port_selected side || starboard_selected side = true ->
  set_positions angle0 amplitude wavelength time_milli wavetype side st
    = None.
Proof.
  intros Hok HN Hsel. unfold set_positions.
  destruct (255 <? Z.of_nat NUM_SERVOS); [reflexivity |].
  unfold bind.
  replace NUM_SERVOS with (5 + S (NUM_SERVOS - 6))%nat by lia.
  rewrite seq_app, servo_loop_app.
  destruct (servo_loop_defined amplitude wavelength time_milli wavetype side
              (seq 0 5) angle0 st Hok) as (a1 & st1 & Hl & Hok1).
  { apply Forall_forall. intros i Hi. apply elem_of_seq in Hi. lia. }
  rewrite Hl. cbn [seq servo_loop Nat.add]. unfold bind.
  rewrite servo_body_out_of_bounds; auto.
Qed.

Lemma servo_loop_writes amplitude wavelength time_milli wavetype side
    servonums :
  NoDup servonums ->
  forall angle st a st',
  servo_loop amplitude wavelength time_milli wavetype side servonums angle st
    = Some (a, st') ->
  pwm st' = pwm st ++ flat_map (writes_of side st') servonums.
Proof.
  intros Hnd.
  induction Hnd as [| j rest Hj Hnd IH]; intros angle st a st' H.
  - injection H as _ <-. simpl. symmetry. apply app_nil_r.
  - apply servo_loop_cons in H as (a1 & st1 & Hb & Hl).
    rewrite (IH _ _ _ _ Hl). cbn [flat_map]. rewrite app_assoc. f_equal.
    unfold writes_of.
    rewrite (servo_loop_port_frame _ _ _ _ _ _ _ Hj _ _ _ _ Hl).
    rewrite (servo_loop_starboard_frame _ _ _ _ _ _ _ Hj _ _ _ _ Hl).
    apply servo_body_inv in Hb as (mid & HP & HS & Hpwm).
    rewrite Hpwm. f_equal.
    destruct (port_selected side), (starboard_selected side).
    + destruct HP as (lp & Hlp & _ & ->), HS as (ls & Hls & _ & ->).
      rewrite !list_lookup_insert_eq by (apply lookup_lt_is_Some_1; eauto).
      reflexivity.
    + destruct HP as (lp & Hlp & _ & ->).
      rewrite !list_lookup_insert_eq by (apply lookup_lt_is_Some_1; eauto).
      reflexivity.
    + destruct HS as (ls & Hls & _ & ->).
      rewrite !list_lookup_insert_eq by (apply lookup_lt_is_Some_1; eauto).
      reflexivity.
    + reflexivity.
Qed.

(** X5.  What a call sends to the driver is what it leaves in the
    histories: for servo 0, 1, ... in turn, channel [i] receives the pulse
    mapped from the new port entry [i] (if the port bank is selected), then
    channel [i + NUM_SERVOS] the pulse mapped from the negated new starboard
    entry [i] (if the starboard bank is selected); [on] is always 0, and
    nothing else is sent. *)
Theorem set_positions_writes_match_histories angle0 amplitude wavelength
    time_milli wavetype side st :
  (NUM_SERVOS <= 5)%nat -> state_ok st ->
  exists st',
    set_positions angle0 amplitude wavelength time_milli wavetype side st
      = Some (tt, st') /\
    pwm st' = pwm st ++ flat_map (writes_of side st') (seq 0 NUM_SERVOS).
Proof.
  intros HN Hok.
  destruct (set_positions_defined angle0 amplitude wavelength time_milli
              wavetype side st HN Hok) as (st' & Hrun & _).
  exists st'. split; [exact Hrun |].
  apply set_positions_inv in Hrun as (a & Hl).
  eapply servo_loop_writes; eauto using NoDup_seq.
Qed.

End SetPositionsEdges.

(** ** [set_positions]: the stored angles *)

Section SetPositionsAngles.
Context {env : Env}.
#[local] Open Scope servo_scope.

Lemma port_selected_B : port_selected side_B = true.
Proof. unfold port_selected. rewrite Z.eqb_refl. reflexivity. Qed.

Lemma starboard_selected_B : starboard_selected side_B = true.
Proof. unfold starboard_selected. rewrite Z.eqb_refl. reflexivity. Qed.

Lemma port_selected_P : port_selected side_P = true.
Proof. unfold port_selected. rewrite Z.eqb_refl. apply orb_true_r. Qed.

Lemma set_positions_port_untouched angle0 amplitude wavelength time_milli
    wavetype side st u st' (i : nat) :
  set_positions angle0 amplitude wavelength time_milli wavetype side st
    = Some (u, st') ->
  (NUM_SERVOS <= i)%nat ->
  last_port_angle st' !! i = last_port_angle st !! i /\
  last_starboard_angle st' !! i = last_starboard_angle st !! i.
Proof.
  intros Hrun Hi. apply set_positions_inv in Hrun as (a & Hl).
  assert (Hnotin : i ∉ seq 0 NUM_SERVOS).
  { intros Hin. apply elem_of_seq in Hin. lia. }
  split.
  - eapply servo_loop_port_frame; eauto.
  - eapply servo_loop_starboard_frame; eauto.
Qed.

(** X6.  With a known wave type the port bank gets the same treatment
    whether or not the starboard bank is driven in the same call: the port
    history after a call with [side = B] is the port history after the same
    call with [side = P]. *)
Theorem set_positions_port_same_for_B_and_P a b amplitude wavelength
    time_milli wavetype st :
  known_wavetype wavetype = true ->
  (NUM_SERVOS <= 5)%nat -> state_ok st ->
  exists st_B st_P,
    set_positions a amplitude wavelength time_milli wavetype side_B st
      = Some (tt, st_B) /\
    set_positions b amplitude wavelength time_milli wavetype side_P st
      = Some (tt, st_P) /\
    last_port_angle st_B = last_port_angle st_P.
Proof.
  intros Hk HN Hok.
  destruct (set_positions_defined a amplitude wavelength time_milli
              wavetype side_B st HN Hok) as (st_B & HB & _).
  destruct (set_positions_defined b amplitude wavelength time_milli
              wavetype side_P st HN Hok) as (st_P & HP & _).
  exists st_B, st_P. split; [exact HB |]. split; [exact HP |].
  apply list_eq. intros i.
  destruct (decide (i < NUM_SERVOS)%nat) as [Hi | Hi].
  - destruct Hok as [Hlp Hls].
    destruct (lookup_lt_is_Some_2 (last_port_angle st) i) as [lp Hp];
      [lia |].
    destruct (lookup_lt_is_Some_2 (last_starboard_angle st) i) as [ls Hs];
      [lia |].
    destruct (set_positions_values _ _ _ _ _ _ _ _ _ i lp ls 0%Q Hk HB Hi
                Hp Hs) as [H1 _].
    destruct (set_positions_values _ _ _ _ _ _ _ _ _ i lp ls 0%Q Hk HP Hi
                Hp Hs) as [H2 _].
    rewrite port_selected_B in H1. rewrite port_selected_P in H2.
    rewrite (H1 eq_refl), (H2 eq_refl). reflexivity.
  - destruct (set_positions_port_untouched _ _ _ _ _ _ _ _ _ i HB) as [-> _];
      [lia |].
    destruct (set_positions_port_untouched _ _ _ _ _ _ _ _ _ i HP) as [-> _];
      [lia |].
    reflexivity.
Qed.

(** X7.  With a known wave type [set_positions] never reads the local
    [angle] before the switch has assigned it: the outcome is the same
    whatever that local holds when the loop is entered. *)
Theorem set_positions_entry_angle_unused a b amplitude wavelength time_milli
    wavetype side st :
  known_wavetype wavetype = true ->
  set_positions a amplitude wavelength time_milli wavetype side st =
  set_positions b amplitude wavelength time_milli wavetype side st.
Proof. intros Hk. apply set_positions_angle0, Hk. Qed.

Lemma slew_between (target last : Q) :
  (0 <= MAX_ANGLE_DELTA)%Q -> between last (slew target last) target.
Proof.
  intros HD. unfold between, slew. cmp_cases.
  - left. lra.
  - right. lra.
  - destruct (Qlt_le_dec target last); [right | left]; lra.
Qed.

Lemma slew_reaches (target last : Q) :
  (Qabs (target - last) <= MAX_ANGLE_DELTA)%Q -> slew target last = target.
Proof.
  intros H. apply Qabs_Qle_condition in H. apply slew_in_range; lra.
Qed.

(** X8.  With a known wave type and a non-negative [MAX_ANGLE_DELTA], the
    angle stored for a servo never overshoots: it lies between the previous
    entry and the angle aimed at (raw angle plus neutral for the port bank;
    for the starboard bank, what the port block left in [angle], or the raw
    angle when the port bank is not selected, plus neutral), and it is that
    angle itself when the previous entry is within [MAX_ANGLE_DELTA] of
    it. *)
Theorem set_positions_no_overshoot angle0 amplitude wavelength time_milli
    wavetype side st (i : nat) (lp ls any : Q) :
  known_wavetype wavetype = true -> (0 <= MAX_ANGLE_DELTA)%Q ->
  (NUM_SERVOS <= 5)%nat -> state_ok st -> (i < NUM_SERVOS)%nat ->
  last_port_angle st !! i = Some lp ->
  last_starboard_angle st !! i = Some ls ->
  let raw := dispatch amplitude wavelength time_milli wavetype i any in
  let aim_P := (raw + NEUTRALS_PORT i)%Q in
  exists st',
    set_positions angle0 amplitude wavelength time_milli wavetype side st
      = Some (tt, st') /\
    (port_selected side = true ->
     exists new, last_port_angle st' !! i = Some new /\
       between lp new aim_P /\
       ((Qabs (aim_P - lp) <= MAX_ANGLE_DELTA)%Q -> new = aim_P)) /\
    (starboard_selected side = true ->
     exists mid new,
       (if port_selected side
        then last_port_angle st' !! i = Some mid else mid = raw) /\
       last_starboard_angle st' !! i = Some new /\
       between ls new (mid + NEUTRALS_STARBOARD i)%Q /\
       ((Qabs (mid + NEUTRALS_STARBOARD i - ls) <= MAX_ANGLE_DELTA)%Q ->
        new = (mid + NEUTRALS_STARBOARD i)%Q)).
Proof.
  intros Hk HD HN Hok Hi Hlp Hls raw aim_P.
  destruct (set_positions_defined angle0 amplitude wavelength time_milli
              wavetype side st HN Hok) as (st' & Hrun & _).
  exists st'. split; [exact Hrun |].
  destruct (set_positions_values _ _ _ _ _ _ _ _ _ i lp ls any Hk Hrun Hi
              Hlp Hls) as [HP HS].
  fold raw in HP, HS. fold aim_P in HP, HS.
  split.
  - intros Hsel. specialize (HP Hsel). rewrite Hsel in HP.
    eexists. split; [exact HP |].
    split; [apply slew_between, HD | apply slew_reaches].
  - intros Hsel. specialize (HS Hsel).
    destruct (port_selected side) eqn:EP.
    + exists (slew aim_P lp). eexists.
      split; [apply HP; reflexivity |]. split; [exact HS |].
      split; [apply slew_between, HD | apply slew_reaches].
    + exists raw. eexists. split; [reflexivity |]. split; [exact HS |].
      split; [apply slew_between, HD | apply slew_reaches].
Qed.

End SetPositionsAngles.

(** ** [init]: the homing sequence *)



Section Homing.
Context {env : Env}.
#[local] Open Scope servo_scope.

Lemma homing_step_eq (st : State) :
  homing_step st = set_positions 0 0 240 0 SINWAVE side_B st.
Proof.
  unfold homing_step, delay, bind, ret.
  destruct (set_positions _ _ _ _ _ _ st) as [[[] st']|]; reflexivity.
Qed.

Lemma init_eq (st : State) : init st = for_loop 30 homing_step st.
Proof. reflexivity. Qed.

Lemma for_loop_S (n : nat) (body : M unit) (st : State) :
  for_loop (S n) body st =
  match body st with
  | Some (_, st1) => for_loop n body st1
  | None => None
  end.
Proof.
  cbn [for_loop]. unfold bind.
  destruct (body st) as [[u st1]|]; reflexivity.
Qed.

Lemma dispatch_SINWAVE amplitude wavelength time_milli servonum angle :
  dispatch amplitude wavelength time_milli SINWAVE servonum angle =
  calc_angle_sinwave amplitude wavelength time_milli servonum.
Proof. unfold dispatch. rewrite Z.eqb_refl. reflexivity. Qed.

End Homing.

(** ** [init]: what it sends and what it leaves alone *)

Section HomingTravel.
Context {env : Env}.
#[local] Open Scope servo_scope.

Lemma homing_writes (n : nat) :
  (NUM_SERVOS <= 5)%nat ->
  forall st : State, state_ok st ->
  exists st',
    for_loop n homing_step st = Some (tt, st') /\ state_ok st' /\
    length (pwm st') = (length (pwm st) + n * (2 * NUM_SERVOS))%nat /\
    forall i : nat, (NUM_SERVOS <= i)%nat ->
      last_port_angle st' !! i = last_port_angle st !! i /\
      last_starboard_angle st' !! i = last_starboard_angle st !! i.
Proof.
  intros HN. induction n as [| n IH]; intros st Hok.
  - exists st. split; [reflexivity |]. split; [exact Hok |].
    split; [simpl; lia | auto].
  - destruct (set_positions_defined 0 0 240 0 SINWAVE side_B st HN Hok)
      as (st1 & Hrun & Hok1).
    destruct (IH st1 Hok1) as (st' & Hloop & Hok' & Hlen & Hframe).
    exists st'. rewrite for_loop_S, homing_step_eq, Hrun.
    split; [exact Hloop |]. split; [exact Hok' |].
    split.
    + apply set_positions_inv in Hrun as (a & Hl).
      rewrite Hlen, (servo_loop_pwm_length _ _ _ _ _ _ _ _ _ _ Hl).
      rewrite port_selected_B, starboard_selected_B, length_seq. simpl. lia.
    + intros i Hi. destruct (Hframe i Hi) as [-> ->].
      exact (set_positions_port_untouched _ _ _ _ _ _ _ _ _ i Hrun Hi).
Qed.

(** X10.  [init] returns, keeps the five cells of both histories, sends
    exactly [30 * 2 * NUM_SERVOS] channel writes, and leaves the history
    cells from index [NUM_SERVOS] on as they were. *)
Theorem init_returns_and_writes (st : State) :
  (NUM_SERVOS <= 5)%nat -> state_ok st ->
  exists st',
    init st = Some (tt, st') /\ state_ok st' /\
    length (pwm st') = (length (pwm st) + 30 * (2 * NUM_SERVOS))%nat /\
    forall i : nat, (NUM_SERVOS <= i)%nat ->
      last_port_angle st' !! i = last_port_angle st !! i /\
      last_starboard_angle st' !! i = last_starboard_angle st !! i.
Proof.
  intros HN Hok. rewrite init_eq. exact (homing_writes 30 HN st Hok).
Qed.

End HomingTravel.

(** ** [drive_fins]: one control cycle *)

Section DriveFinsCycle.
Context {env : Env}.
#[local] Open Scope servo_scope.

Lemma clamp_compat (x y : Q) : (x == y)%Q -> (clamp x == clamp y)%Q.
Proof. intros H. unfold clamp. cmp_cases; lra. Qed.

(** X12.  In the combined branch ([|surge| > 0.05] or [|yaw| > 0.05]) the
    sign of [yaw] makes no difference to the phase accumulators:
    [drive_fins] returns equal accumulators for [yaw] and for [- yaw]. *)
Theorem drive_fins_yaw_sign surge sway pitch yaw amp time st :
  (0.05 < Qabs surge)%Q \/ (0.05 < Qabs yaw)%Q ->
  (NUM_SERVOS <= 5)%nat -> state_ok st ->
  exists t1 st1 t2 st2,
    drive_fins surge sway pitch yaw amp time st = Some (t1, st1) /\
    drive_fins surge sway pitch (- yaw) amp time st = Some (t2, st2) /\
    (port t1 == port t2)%Q /\ (starboard t1 == starboard t2)%Q.
Proof.
  intros Hcomb HN Hok.
  assert (Hcomb' : (0.05 < Qabs surge)%Q \/ (0.05 < Qabs (- yaw))%Q)
    by (rewrite Qabs_opp; exact Hcomb).
  apply only_sway_false_iff in Hcomb, Hcomb'.
  destruct (drive_fins_defined surge sway pitch yaw amp time st HN Hok)
    as (st1 & H1 & _).
  destruct (drive_fins_defined surge sway pitch (- yaw) amp time st HN Hok)
    as (st2 & H2 & _).
  destruct (blend_time_combined_abs_yaw surge sway pitch yaw amp time Hcomb)
    as (p1 & s1 & E1 & Hp1 & Hs1).
  destruct (blend_time_combined_abs_yaw surge sway pitch (- yaw) amp time
              Hcomb') as (p2 & s2 & E2 & Hp2 & Hs2).
  rewrite Qabs_opp in Hp2, Hs2.
  do 4 eexists. split; [exact H1 |]. split; [exact H2 |].
  rewrite E1, E2. simpl.
  assert (Hp : (clamp p1 == clamp p2)%Q) by (apply clamp_compat; lra).
  assert (Hs : (clamp s1 == clamp s2)%Q) by (apply clamp_compat; lra).
  split; lra.
Qed.

(** X13.  Inside the deadband ([|surge| <= 0.05] and [|yaw| <= 0.05]) the
    values of [surge] and [yaw] are not used, and [pitch] never is: two
    calls that differ in them only have the same outcome. *)
Theorem drive_fins_deadband surge surge' sway pitch pitch' yaw yaw' amp time
    st :
  (Qabs surge <= 0.05)%Q -> (Qabs yaw <= 0.05)%Q ->
  (Qabs surge' <= 0.05)%Q -> (Qabs yaw' <= 0.05)%Q ->
  drive_fins surge sway pitch yaw amp time st =
  drive_fins surge' sway pitch' yaw' amp time st.
Proof.
  intros H1 H2 H3 H4.
  assert (E : only_sway surge yaw = true) by (apply only_sway_iff; auto).
  assert (E' : only_sway surge' yaw' = true) by (apply only_sway_iff; auto).
  unfold drive_fins, drive_fins_blend. rewrite E, E'. reflexivity.
Qed.

End DriveFinsCycle.

(** ** Runs in the concrete environments *)

Section FurtherRuns.
#[local] Existing Instance example_env.
#[local] Open Scope servo_scope.

Lemma example_env_delta : (0 <= MAX_ANGLE_DELTA)%Q.
Proof. simpl. lra. Qed.

Lemma example_env_time_inc : (0 <= MAX_TIME_INC)%Q.
Proof. simpl. lra. Qed.

Lemma set_positions_unknown_side_witness :
  7 <> side_B /\ 7 <> side_P /\ 7 <> side_S /\ (NUM_SERVOS <= 255)%nat /\
  set_positions 0 40 480 7 SINWAVE 7 initial_state = Some (tt, initial_state).
Proof.
  assert (H1 : 7 <> side_B) by discriminate.
  assert (H2 : 7 <> side_P) by discriminate.
  assert (H3 : 7 <> side_S) by discriminate.
  assert (H4 : (NUM_SERVOS <= 255)%nat) by (simpl; lia).
  split; [exact H1 |]. split; [exact H2 |]. split; [exact H3 |].
  split; [exact H4 |].
  exact (set_positions_unknown_side 0 40 480 7 SINWAVE 7 initial_state
           H1 H2 H3 H4).
Defined.

Lemma set_positions_overruns_histories_witness :
  state_ok initial_state /\ (5 < @NUM_SERVOS six_servo_env)%nat /\
  @port_selected six_servo_env (@side_P six_servo_env)
    || @starboard_selected six_servo_env (@side_P six_servo_env) = true /\
  @set_positions six_servo_env 0 40 480 7 (@SINWAVE six_servo_env)
    (@side_P six_servo_env) initial_state = None.
Proof.
  assert (H1 : (5 < @NUM_SERVOS six_servo_env)%nat) by (simpl; lia).
  assert (H2 : @port_selected six_servo_env (@side_P six_servo_env)
               || @starboard_selected six_servo_env (@side_P six_servo_env)
               = true) by reflexivity.
  split; [exact initial_state_ok |]. split; [exact H1 |]. split; [exact H2 |].
  exact (@set_positions_overruns_histories six_servo_env 0 40 480 7
           (@SINWAVE six_servo_env) (@side_P six_servo_env) initial_state
           initial_state_ok H1 H2).
Defined.

Lemma set_positions_writes_match_histories_witness :
  (NUM_SERVOS <= 5)%nat /\ state_ok initial_state /\
  exists st',
    set_positions 0 40 480 7 SINWAVE side_B initial_state = Some (tt, st') /\
    pwm st' =
      pwm initial_state ++ flat_map (writes_of side_B st') (seq 0 NUM_SERVOS).
Proof.
  split; [exact example_env_servos |]. split; [exact initial_state_ok |].
  exact (set_positions_writes_match_histories 0 40 480 7 SINWAVE side_B
           initial_state example_env_servos initial_state_ok).
Defined.

Lemma set_positions_port_same_for_B_and_P_witness :
  known_wavetype STANDINGWAVE = true /\
  (NUM_SERVOS <= 5)%nat /\ state_ok initial_state /\
  exists st_B st_P,
    set_positions 1 40 480 7 STANDINGWAVE side_B initial_state
      = Some (tt, st_B) /\
    set_positions 2 40 480 7 STANDINGWAVE side_P initial_state
      = Some (tt, st_P) /\
    last_port_angle st_B = last_port_angle st_P.
Proof.
  assert (Hk : known_wavetype STANDINGWAVE = true) by reflexivity.
  split; [exact Hk |].
  split; [exact example_env_servos |]. split; [exact initial_state_ok |].
  exact (set_positions_port_same_for_B_and_P 1 2 40 480 7 STANDINGWAVE
           initial_state Hk example_env_servos initial_state_ok).
Defined.

Lemma set_positions_entry_angle_unused_witness :
  known_wavetype FLATWAVE = true /\
  set_positions 1 40 480 7 FLATWAVE side_B initial_state =
  set_positions 2 40 480 7 FLATWAVE side_B initial_state.
Proof.
  assert (Hk : known_wavetype FLATWAVE = true) by reflexivity.
  split; [exact Hk |].
  exact (set_positions_entry_angle_unused 1 2 40 480 7 FLATWAVE side_B
           initial_state Hk).
Defined.

Lemma set_positions_no_overshoot_witness :
  known_wavetype SINWAVE = true /\ (0 <= MAX_ANGLE_DELTA)%Q /\
  (NUM_SERVOS <= 5)%nat /\ state_ok initial_state /\ (2 < NUM_SERVOS)%nat /\
  last_port_angle initial_state !! 2%nat = Some 0%Q /\
  last_starboard_angle initial_state !! 2%nat = Some 0%Q /\
  let raw := dispatch 40 480 7 SINWAVE 2 0 in
  let aim_P := (raw + NEUTRALS_PORT 2)%Q in
  exists st',
    set_positions 0 40 480 7 SINWAVE side_B initial_state = Some (tt, st') /\
    (port_selected side_B = true ->
     exists new, last_port_angle st' !! 2%nat = Some new /\
       between 0 new aim_P /\
       ((Qabs (aim_P - 0) <= MAX_ANGLE_DELTA)%Q -> new = aim_P)) /\
    (starboard_selected side_B = true ->
     exists mid new,
       (if port_selected side_B
        then last_port_angle st' !! 2%nat = Some mid else mid = raw) /\
       last_starboard_angle st' !! 2%nat = Some new /\
       between 0 new (mid + NEUTRALS_STARBOARD 2)%Q /\
       ((Qabs (mid + NEUTRALS_STARBOARD 2 - 0) <= MAX_ANGLE_DELTA)%Q ->
        new = (mid + NEUTRALS_STARBOARD 2)%Q)).
Proof.
  assert (Hk : known_wavetype SINWAVE = true) by reflexivity.
  assert (Hi : (2 < NUM_SERVOS)%nat) by (simpl; lia).
  assert (Hp : last_port_angle initial_state !! 2%nat = Some 0%Q)
    by reflexivity.
  assert (Hs : last_starboard_angle initial_state !! 2%nat = Some 0%Q)
    by reflexivity.
  split; [exact Hk |]. split; [exact example_env_delta |].
  split; [exact example_env_servos |]. split; [exact initial_state_ok |].
  split; [exact Hi |]. split; [exact Hp |]. split; [exact Hs |].
  exact (set_positions_no_overshoot 0 40 480 7 SINWAVE side_B initial_state
           2 0 0 0 Hk example_env_delta example_env_servos initial_state_ok
           Hi Hp Hs).
Defined.

Lemma drive_fins_yaw_sign_witness :
  ((0.05 < Qabs 0.2)%Q \/ (0.05 < Qabs 0.5)%Q) /\
  (NUM_SERVOS <= 5)%nat /\ state_ok initial_state /\
  exists t1 st1 t2 st2,
    drive_fins 0.2 0 0 0.5 10 (mkTime 7 9) initial_state = Some (t1, st1) /\
    drive_fins 0.2 0 0 (- 0.5) 10 (mkTime 7 9) initial_state
      = Some (t2, st2) /\
    (port t1 == port t2)%Q /\ (starboard t1 == starboard t2)%Q.
Proof.
  assert (Hc : (0.05 < Qabs 0.2)%Q \/ (0.05 < Qabs 0.5)%Q)
    by (left; reflexivity).
  split; [exact Hc |].
  split; [exact example_env_servos |]. split; [exact initial_state_ok |].
  exact (drive_fins_yaw_sign 0.2 0 0 0.5 10 (mkTime 7 9) initial_state
           Hc example_env_servos initial_state_ok).
Defined.

Lemma drive_fins_deadband_witness :
  (Qabs 0.03 <= 0.05)%Q /\ (Qabs (-0.05) <= 0.05)%Q /\
  (Qabs 0 <= 0.05)%Q /\ (Qabs 0.01 <= 0.05)%Q /\
  drive_fins 0.03 0.5 1 (-0.05) 10 (mkTime 7 9) initial_state =
  drive_fins 0 0.5 2 0.01 10 (mkTime 7 9) initial_state.
Proof.
  assert (H1 : (Qabs 0.03 <= 0.05)%Q) by (apply Qle_bool_iff; reflexivity).
  assert (H2 : (Qabs (-0.05) <= 0.05)%Q) by (apply Qle_bool_iff; reflexivity).
  assert (H3 : (Qabs 0 <= 0.05)%Q) by (apply Qle_bool_iff; reflexivity).
  assert (H4 : (Qabs 0.01 <= 0.05)%Q) by (apply Qle_bool_iff; reflexivity).
  split; [exact H1 |]. split; [exact H2 |]. split; [exact H3 |].
  split; [exact H4 |].
  exact (drive_fins_deadband 0.03 0 0.5 1 2 (-0.05) 0.01 10 (mkTime 7 9)
           initial_state H1 H2 H3 H4).
Defined.

Lemma init_returns_and_writes_witness :
  (NUM_SERVOS <= 5)%nat /\ state_ok initial_state /\
  exists st',
    init initial_state = Some (tt, st') /\ state_ok st' /\
    length (pwm st') =
      (length (pwm initial_state) + 30 * (2 * NUM_SERVOS))%nat /\
    forall i : nat, (NUM_SERVOS <= i)%nat ->
      last_port_angle st' !! i = last_port_angle initial_state !! i /\
      last_starboard_angle st' !! i = last_starboard_angle initial_state !! i.
Proof.
  split; [exact example_env_servos |]. split; [exact initial_state_ok |].
  exact (init_returns_and_writes initial_state example_env_servos
           initial_state_ok).
Defined.

End FurtherRuns.

(** * Part IV: the slew-rate limit with rounded sums *)

Section RoundedFacts.
Context {env : Env}.
Variable rnd : Q -> Q.
#[local] Open Scope servo_scope.










(** With exact sums the rounded definitions are those of Part I. *)
Lemma servo_loop_r_exact amplitude wavelength time_milli wavetype side
    servonums :
  forall angle st,
  servo_loop_r (fun x => x) amplitude wavelength time_milli wavetype side
    servonums angle st =
  servo_loop amplitude wavelength time_milli wavetype side servonums angle st.
Proof.
  induction servonums as [| i rest IH]; intros angle st.
  - reflexivity.
  - cbn [servo_loop_r servo_loop]. unfold bind.
    change (servo_body_r (fun x => x) amplitude wavelength time_milli wavetype
              side i angle st)
      with (servo_body amplitude wavelength time_milli wavetype side i angle
              st).
    destruct (servo_body _ _ _ _ _ _ _ _) as [[a1 st1]|]; [apply IH |].
    reflexivity.
Qed.

Lemma set_positions_r_exact angle0 amplitude wavelength time_milli wavetype
    side st :
  set_positions_r (fun x => x) angle0 amplitude wavelength time_milli wavetype
    side st =
  set_positions angle0 amplitude wavelength time_milli wavetype side st.
Proof.
  unfold set_positions_r, set_positions.
  destruct (255 <? Z.of_nat NUM_SERVOS); [reflexivity |].
  unfold bind. rewrite servo_loop_r_exact. reflexivity.
Qed.


End RoundedFacts.

Section RoundedRuns.
#[local] Existing Instance example_env.
#[local] Open Scope servo_scope.

(** [round_binary32] on known values: 0.3 and 0.1, a tie broken to the even
    significand in both directions, the spacing 8 above [2^26], the
    smallest subnormal, and a value that is a [float] already. *)
Remark round_binary32_examples :
  (round_binary32 0.3 == 5033165 # 16777216)%Q /\
  (round_binary32 0.1 == 13421773 # 134217728)%Q /\
  (round_binary32 16777217 == 16777216)%Q /\
  (round_binary32 16777219 == 16777220)%Q /\
  (round_binary32 (67108864 + 5) == 67108872)%Q /\
  (round_binary32 (3 # 2 ^ 150) == 1 # 2 ^ 148)%Q /\
  (round_binary32 (1 # 2 ^ 150) == 0)%Q /\
  (round_binary32 (round_binary32 0.3) == round_binary32 0.3)%Q.
Proof. repeat split; vm_compute; reflexivity. Qed.




(** C4 at a negative yaw.  [drive_fins(0.5, 0, 0, -0.25, 10, {0, 0})] with
    [MAX_TIME_INC] 10 takes the combined branch and advances port by 7.5 and
    starboard by 2.5, exactly as the same call with [yaw = 0.25] does: the
    increments of the two sides are not exchanged when the sign of [yaw]
    changes. *)
Theorem drive_fins_negative_yaw_same_turn :
  exists t_neg st_neg t_pos st_pos,
    only_sway 0.5 (-0.25) = false /\
    drive_fins 0.5 0 0 (-0.25) 10 (mkTime 0 0) initial_state
      = Some (t_neg, st_neg) /\
    drive_fins 0.5 0 0 0.25 10 (mkTime 0 0) initial_state
      = Some (t_pos, st_pos) /\
    (port t_neg == 7.5)%Q /\ (starboard t_neg == 2.5)%Q /\
    (port t_pos == 7.5)%Q /\ (starboard t_pos == 2.5)%Q.
Proof.
  eexists _, _, _, _.
  split; [reflexivity |].
  split; [vm_compute; reflexivity |].
  split; [vm_compute; reflexivity |].
  repeat split; reflexivity.
Qed.

End RoundedRuns.
